(** * computer_use_demo/app.py: session bootstrap and transcript rendering

    A shallow embedding of the session-state and rendering core of
    [src/computer_use_demo/app.py]: [setup_state], [_reset_model],
    [load_from_storage], [_render_message], [decode_base64_image],
    [sampling_loop_wrapper] and [process_input].

    Python values are an inductive type [pyval]; the session state, a Python
    dict with string keys that is mutated in place, is a [gmap string pyval]
    threaded through a small state-and-exception monad; the operating system
    (environment, configuration directory, working directory, clock) is a
    record [World] that is passed explicitly.  Strings are sequences of code
    points below 256. *)

From Stdlib Require Import ZArith Ascii String List Bool.
From stdpp Require Import base option list strings gmap fin_maps.

Local Open Scope string_scope.
Local Open Scope Z_scope.

(** ** Python values *)

Local Set Warnings "-register-all".

Inductive pyval : Type :=
| PNone
| PBool (b : bool)
| PInt (z : Z)
| PStr (s : string)
| PBytes (s : string)
| PList (items : list pyval)
| PDict (entries : list (string * pyval))      (* a dict with str keys *)
| PTextBlock (text : string)                   (* anthropic.types.TextBlock *)
| PBetaTextBlock (text : string)               (* anthropic.types.beta.BetaTextBlock *)
| PToolUseBlock (name : string) (input : pyval)
| PBetaToolUseBlock (name : string) (input : pyval)
| PToolResult (output error base64_image : option string)
| PImage (path : string)                       (* gr.Image(path) *)
| PObject (cls : string) (attrs : list (string * pyval)).
  (* an instance of any other class, with its class name and attributes *)

(** [Sender], a str-valued enum *)
Inductive Sender : Type := USER | BOT | TOOL.

Definition Sender_value (s : Sender) : string :=
  match s with USER => "user" | BOT => "assistant" | TOOL => "tool" end.

(** The exceptions the modelled code can raise; all derive from [Exception]. *)
Inductive exn : Type :=
| KeyError | IndexError | TypeError | AttributeError | ValueError
| BinasciiError | UnidentifiedImageError | OSError.

Inductive result (A : Type) : Type :=
| Ok (a : A)
| Raise (e : exn).
Arguments Ok {A} a.
Arguments Raise {A} e.

Definition is_ok {A} (r : result A) : bool :=
  match r with Ok _ => true | Raise _ => false end.

Definition of_opt_str (o : option string) : pyval :=
  match o with Some s => PStr s | None => PNone end.

(** Modelled from the spec: the [ToolResult] class of [computer_use_demo.tools]
    is not part of the sources.  The spec gives it three optional fields and
    "no operation beyond structural access", so it has Python's default
    truthiness and its three attributes always exist (absent means [None]). *)
Definition ToolResult_truthy (output error base64_image : option string) : bool := true.

(** [bool(v)] *)
Definition py_truthy (v : pyval) : bool :=
  match v with
  | PNone => false
  | PBool b => b
  | PInt z => negb (z =? 0)
  | PStr s | PBytes s => negb (String.eqb s "")
  | PList items => match items with [] => false | _ => true end
  | PDict entries => match entries with [] => false | _ => true end
  | PToolResult o e i => ToolResult_truthy o e i
  | PTextBlock _ | PBetaTextBlock _ | PToolUseBlock _ _ | PBetaToolUseBlock _ _
  | PImage _ | PObject _ _ => true
  end.

Fixpoint assoc {A} (k : string) (l : list (string * A)) : option A :=
  match l with
  | [] => None
  | (k', v) :: rest => if String.eqb k k' then Some v else assoc k rest
  end.

(** [v[key]] for a str key *)
Definition getitem_str (v : pyval) (key : string) : result pyval :=
  match v with
  | PDict entries =>
      match assoc key entries with Some x => Ok x | None => Raise KeyError end
  | _ => Raise TypeError
  end.

(** [v[0]] *)
Definition getitem_0 (v : pyval) : result pyval :=
  match v with
  | PList items => match items with x :: _ => Ok x | [] => Raise IndexError end
  | PStr s => match s with String c _ => Ok (PStr (String c "")) | "" => Raise IndexError end
  | PBytes s =>
      match s with String c _ => Ok (PInt (Z.of_nat (nat_of_ascii c))) | "" => Raise IndexError end
  | PDict _ => Raise KeyError
  | _ => Raise TypeError
  end.

(** [v.name] *)
Definition py_getattr (v : pyval) (name : string) : result pyval :=
  match v with
  | PToolResult o e i =>
      if String.eqb name "output" then Ok (of_opt_str o)
      else if String.eqb name "error" then Ok (of_opt_str e)
      else if String.eqb name "base64_image" then Ok (of_opt_str i)
      else Raise AttributeError
  | PTextBlock t | PBetaTextBlock t =>
      if String.eqb name "text" then Ok (PStr t)
      else if String.eqb name "type" then Ok (PStr "text")
      else Raise AttributeError
  | PToolUseBlock n inp | PBetaToolUseBlock n inp =>
      if String.eqb name "name" then Ok (PStr n)
      else if String.eqb name "input" then Ok inp
      else if String.eqb name "type" then Ok (PStr "tool_use")
      else Raise AttributeError
  | PObject _ attrs =>
      match assoc name attrs with Some x => Ok x | None => Raise AttributeError end
  | _ => Raise AttributeError
  end.

Definition py_hasattr (v : pyval) (name : string) : bool := is_ok (py_getattr v name).

(** [v.__class__.__name__] *)
Definition class_name (v : pyval) : string :=
  match v with
  | PNone => "NoneType"
  | PBool _ => "bool"
  | PInt _ => "int"
  | PStr _ => "str"
  | PBytes _ => "bytes"
  | PList _ => "list"
  | PDict _ => "dict"
  | PTextBlock _ => "TextBlock"
  | PBetaTextBlock _ => "BetaTextBlock"
  | PToolUseBlock _ _ => "ToolUseBlock"
  | PBetaToolUseBlock _ _ => "BetaToolUseBlock"
  | PToolResult _ _ _ => "ToolResult"
  | PImage _ => "Image"
  | PObject cls _ => cls
  end.

Definition isinstance_str (v : pyval) : bool := match v with PStr _ => true | _ => false end.
Definition isinstance_ToolResult (v : pyval) : bool :=
  match v with PToolResult _ _ _ => true | _ => false end.
Definition isinstance_TextBlock (v : pyval) : bool :=
  match v with PTextBlock _ => true | _ => false end.
Definition isinstance_BetaTextBlock (v : pyval) : bool :=
  match v with PBetaTextBlock _ => true | _ => false end.
Definition isinstance_ToolUseBlock (v : pyval) : bool :=
  match v with PToolUseBlock _ _ => true | _ => false end.
Definition isinstance_BetaToolUseBlock (v : pyval) : bool :=
  match v with PBetaToolUseBlock _ _ => true | _ => false end.
Definition isinstance_Dict (v : pyval) : bool := match v with PDict _ => true | _ => false end.

(** [v == "lit"] for a str literal *)
Definition eq_str (v : pyval) (lit : string) : bool :=
  match v with PStr s => String.eqb s lit | _ => false end.

(** ** Strings *)

Definition nl : string := String (ascii_of_nat 10) "".

(** The code points below 256 that [str.strip] removes. *)
Definition py_isspace (c : ascii) : bool :=
  let n := nat_of_ascii c in
  ((9 <=? n) && (n <=? 13) || (28 <=? n) && (n <=? 32) || (n =? 133) || (n =? 160))%nat.

Fixpoint lstrip (s : string) : string :=
  match s with
  | String c rest => if py_isspace c then lstrip rest else s
  | "" => ""
  end.

Definition strip (s : string) : string := String.rev (lstrip (String.rev (lstrip s))).

(** [s.split(sep)] for a one-character separator: [go] carries the piece
    being read, reversed. *)
Fixpoint split_go (sep : ascii) (cur : string) (s : string) : list string :=
  match s with
  | "" => [String.rev cur]
  | String c rest =>
      if Ascii.eqb c sep then String.rev cur :: split_go sep "" rest
      else split_go sep (String c cur) rest
  end.

Definition split (sep : ascii) (s : string) : list string := split_go sep "" s.

(** [a or b] on a [str | None] and a str *)
Definition str_or (a : option string) (b : string) : string :=
  match a with
  | Some s => if String.eqb s "" then b else s
  | None => b
  end.

(** ** Time stamps *)

Record datetime : Type := mk_datetime {
  year : nat; month : nat; day : nat;
  hour : nat; minute : nat; second : nat; microsecond : N
}.

Definition digit (n : nat) : ascii := ascii_of_nat (48 + n mod 10).

Definition two_digits (n : nat) : string :=
  String (digit (n / 10)) (String (digit n) "").

(** [%Y]: four digits for the years 1000 to 9999 *)
Definition four_digits (n : nat) : string :=
  String (digit (n / 1000)) (String (digit (n / 100)) (two_digits n)).

(** [t.strftime('%Y-%m-%d_%H-%M-%S')] *)
Definition strftime_stamp (t : datetime) : string :=
  four_digits (year t) ++ "-" ++ two_digits (month t) ++ "-" ++ two_digits (day t)
  ++ "_" ++ two_digits (hour t) ++ "-" ++ two_digits (minute t) ++ "-" ++ two_digits (second t).

(** ** The world outside the process *)

Inductive stored : Type :=
| FileText (text : string)   (* a readable file and its text *)
| Unreadable.                (* the path exists but reading it raises *)

Inductive file_data : Type :=
| Dump (text : string)       (* text written with f.write *)
| Png (image_data : string). (* the image opened from these bytes, saved as PNG *)

Record World : Type := mk_World {
  environ : gmap string string;        (* os.environ *)
  config_dir : gmap string stored;     (* the files of CONFIG_DIR *)
  cwd : gmap string file_data;         (* files written to the working directory *)
  cwd_writable : bool;
  clock : nat -> datetime;             (* the n-th reading of datetime.now() *)
  ticks : nat                          (* readings taken so far *)
}.

Definition set_cwd (w : World) (files : gmap string file_data) : World :=
  mk_World (environ w) (config_dir w) files (cwd_writable w) (clock w) (ticks w).

(** [datetime.datetime.now()] *)
Definition now (w : World) : World * result datetime :=
  (mk_World (environ w) (config_dir w) (cwd w) (cwd_writable w) (clock w) (S (ticks w)),
   Ok (clock w (ticks w))).

(** Writing a whole file in the working directory *)
Definition write_file (name : string) (d : file_data) (w : World) : World * result unit :=
  if cwd_writable w then (set_cwd w (<[name := d]> (cwd w)), Ok tt)
  else (w, Raise OSError).

(** [os.getenv(name, default)] *)
Definition getenv (w : World) (name default : string) : string :=
  match environ w !! name with Some v => v | None => default end.

(** [load_from_storage]: the stripped text of the file when it exists, can be
    read and is not blank; [None] otherwise, also when reading raises. *)
Definition load_from_storage (w : World) (filename : string) : option string :=
  match config_dir w !! filename with
  | Some (FileText text) =>
      let data := strip text in
      if String.eqb data "" then None else Some data
  | Some Unreadable => None
  | None => None
  end.

(** ** What the imported modules provide

    [computer_use_demo.loop] is not part of the sources: its constants and
    its [sampling_loop] are parameters, as are the library functions whose
    results the code only passes along. *)
Class Lib : Type := mk_Lib {
  (** [APIProvider.ANTHROPIC], a str-valued enum member *)
  APIProvider_ANTHROPIC : string;
  (** the dict [PROVIDER_TO_DEFAULT_MODEL_NAME] *)
  PROVIDER_TO_DEFAULT_MODEL_NAME : gmap string string;
  (** [str(v)] for the values that are neither str nor [None] nor bool *)
  str_of_object : pyval -> string;
  (** [base64.b64decode(s)]; [None] when it raises [binascii.Error] *)
  b64decode : string -> option string;
  (** whether [Image.open(BytesIO(data))] identifies an image *)
  Image_open : string -> bool;
  (** [sampling_loop]: what it leaves in the three containers it is handed
      and mutates in place (the message list, the tool archive, the response
      archive) and in the world, and whether it returned or raised *)
  sampling_loop :
    forall (system_prompt_suffix model provider messages tools responses
            api_key only_n_most_recent_images : pyval),
      World -> World * ((pyval * pyval * pyval) * result unit)
}.

(** [str(v)], as used by f-strings *)
Definition py_str `{Lib} (v : pyval) : string :=
  match v with
  | PStr s => s
  | PNone => "None"
  | PBool true => "True"
  | PBool false => "False"
  | _ => str_of_object v
  end.

(** ** The session state and the effects

    The state is one dict shared by every function and mutated in place; an
    exception leaves the mutations made before it.  [ST S] is the monad of
    computations that mutate an [S] and return or raise. *)
Abbreviation state := (gmap string pyval).

Definition ST (S A : Type) : Type := S -> S * result A.

Definition ret {S A} (a : A) : ST S A := fun s => (s, Ok a).
Definition raise {S A} (e : exn) : ST S A := fun s => (s, Raise e).
Definition lift {S A} (r : result A) : ST S A := fun s => (s, r).
Definition bind {S A B} (m : ST S A) (k : A -> ST S B) : ST S B :=
  fun s => match m s with
           | (s', Ok a) => k a s'
           | (s', Raise e) => (s', Raise e)
           end.

Notation "'let*' x ':=' m 'in' k" := (bind m (fun x => k))
  (at level 10, x name, m at level 100, k at level 200).
Notation "m ';;' k" := (bind m (fun _ => k))
  (at level 100, k at level 200, right associativity).

(** The same for code that touches no state. *)
Definition rbind {A B} (r : result A) (k : A -> result B) : result B :=
  match r with Ok a => k a | Raise e => Raise e end.

Notation "'let?' x ':=' r 'in' k" := (rbind r (fun x => k))
  (at level 10, x name, r at level 100, k at level 200).

Abbreviation M := (ST state).
Abbreviation W := (ST World).

(** [state[key]] *)
Definition subscript (st : state) (key : string) : result pyval :=
  match st !! key with Some v => Ok v | None => Raise KeyError end.

Definition state_get (key : string) : M pyval := fun st => (st, subscript st key).

(** [state[key] = v] *)
Definition state_set (key : string) (v : pyval) : M unit :=
  fun st => (<[key := v]> st, Ok tt).

(** [if key not in state: body] *)
Definition if_not_in (key : string) (body : M unit) : M unit :=
  fun st => match st !! key with
            | Some _ => (st, Ok tt)
            | None => body st
            end.

(** ** Session bootstrap *)

(** [_reset_model] *)
Definition _reset_model `{Lib} : M unit :=
  let* provider := state_get "provider" in
  match provider with
  | PStr p =>
      match PROVIDER_TO_DEFAULT_MODEL_NAME !! p with
      | Some name => state_set "model" (PStr name)
      | None => raise KeyError
      end
  | PList _ | PDict _ => raise TypeError      (* unhashable *)
  | _ => raise KeyError
  end.

(** [setup_state] *)
Definition setup_state `{Lib} (w : World) : M unit :=
  if_not_in "messages" (state_set "messages" (PList [])) ;;
  if_not_in "api_key" (
    state_set "api_key"
      (PStr (str_or (load_from_storage w "api_key") (getenv w "ANTHROPIC_API_KEY" ""))) ;;
    let* key := state_get "api_key" in
    if negb (py_truthy key) then state_set "api_key" (PStr "YOUR_API_KEY_HERE")
    else ret tt) ;;
  if_not_in "provider" (
    state_set "provider"
      (PStr (str_or (Some (getenv w "API_PROVIDER" "anthropic")) APIProvider_ANTHROPIC))) ;;
  if_not_in "provider_radio" (
    let* provider := state_get "provider" in
    state_set "provider_radio" provider) ;;
  if_not_in "model" _reset_model ;;
  if_not_in "auth_validated" (state_set "auth_validated" (PBool false)) ;;
  if_not_in "responses" (state_set "responses" (PDict [])) ;;
  if_not_in "tools" (state_set "tools" (PDict [])) ;;
  if_not_in "only_n_most_recent_images" (state_set "only_n_most_recent_images" (PInt 10)) ;;
  if_not_in "custom_system_prompt" (
    state_set "custom_system_prompt" (PStr (str_or (load_from_storage w "system_prompt") ""))) ;;
  if_not_in "hide_images" (state_set "hide_images" (PBool false)).

(** ** Rendering one message *)

(** [_render_message]; [PNone] is the bare [return] and the fall off the end. *)
Definition _render_message `{Lib} (sender : Sender) (message : pyval) (st : state)
  : result pyval :=
  let is_tool_result :=
    negb (isinstance_str message)
    && (isinstance_ToolResult message
        || String.eqb (class_name message) "ToolResult"
        || String.eqb (class_name message) "CLIResult") in
  let? suppressed :=
    if negb (py_truthy message) then Ok true
    else if is_tool_result then
      let? hide := subscript st "hide_images" in
      Ok (py_truthy hide
          && negb (py_hasattr message "error")
          && negb (py_hasattr message "output"))
    else Ok false in
  if (suppressed : bool) then Ok PNone
  else if is_tool_result then
    let? output := py_getattr message "output" in
    if py_truthy output then Ok output
    else
      let? error := py_getattr message "error" in
      if py_truthy error then Ok (PStr ("Error: " ++ py_str error))
      else
        let? image := py_getattr message "base64_image" in
        let? shown :=
          if py_truthy image then
            let? hide := subscript st "hide_images" in Ok (negb (py_truthy hide))
          else Ok false in
        if (shown : bool) then
          match image with
          | PStr payload | PBytes payload =>
              match b64decode payload with
              | Some data => Ok (PBytes data)
              | None => Raise BinasciiError
              end
          | _ => Raise TypeError
          end
        else Ok PNone
  else if isinstance_BetaTextBlock message || isinstance_TextBlock message then
    py_getattr message "text"
  else if isinstance_BetaToolUseBlock message || isinstance_ToolUseBlock message then
    let? name := py_getattr message "name" in
    let? input := py_getattr message "input" in
    Ok (PStr ("Tool Use: " ++ py_str name ++ nl ++ "Input: " ++ py_str input))
  else Ok message.

(** ** Persisting an image *)

(** [decode_base64_image]: the clock is read once for the name the image is
    saved under and once more for the name that is returned. *)
Definition decode_base64_image `{Lib} (base64_str : pyval) : W string :=
  match base64_str with
  | PStr s =>
      let* payload :=
        if String.prefix "data:image" s then
          match split "," s with
          | _ :: second :: _ => ret second
          | _ => raise IndexError
          end
        else ret s in
      let* image_data :=
        match b64decode payload with
        | Some data => ret data
        | None => raise BinasciiError
        end in
      if Image_open image_data then
        let* saved_at := now in
        write_file (strftime_stamp saved_at ++ ".png") (Png image_data) ;;
        let* returned_at := now in
        ret (strftime_stamp returned_at ++ ".png")
      else raise UnidentifiedImageError
  | PBytes _ => raise TypeError
  | _ => raise AttributeError
  end.

(** ** The transcript *)

(** A display pair [(left, right)]; [PNone] is Python's [None]. *)
Abbreviation pair := (pyval * pyval)%type.

(** [msg["content"][0]] *)
Definition first_block (msg : pyval) : result pyval :=
  let? content := getitem_str msg "content" in
  getitem_0 content.

(** The body of the [try] in [process_input]'s loop: the pair it appends to
    [res], if any.  What it prints is not modelled. *)
Definition render_turn `{Lib} (msg : pyval) : W (option pair) :=
  let* block := lift (first_block msg) in
  if isinstance_TextBlock block then
    let* text := lift (py_getattr block "text") in
    ret (Some (text, PNone))
  else if isinstance_BetaTextBlock block then
    let* text := lift (py_getattr block "text") in
    ret (Some (PNone, text))
  else if isinstance_BetaToolUseBlock block then
    let* name := lift (py_getattr block "name") in
    let* input := lift (py_getattr block "input") in
    ret (Some (PNone, PStr ("Tool Use: " ++ py_str name ++ nl ++ "Input: " ++ py_str input)))
  else
    let* is_image :=
      if isinstance_Dict block then
        lift (let? inner := getitem_str block "content" in
              let? part := getitem_0 inner in
              let? type := getitem_str part "type" in
              Ok (eq_str type "image"))
      else ret false in
    if (is_image : bool) then
      write_file "D:\msg.txt" (Dump (py_str block)) ;;
      let* data :=
        lift (let? inner := getitem_str block "content" in
              let? part := getitem_0 inner in
              let? source := getitem_str part "source" in
              getitem_str source "data") in
      let* image_path := decode_base64_image data in
      ret (Some (PNone, PImage image_path))
    else ret None.

(** The loop of [process_input] over the messages, with its accumulator
    [res]: an exception in the body is caught, and the loop goes on. *)
Fixpoint render_loop `{Lib} (msgs : list pyval) (res : list pair) (w : World)
  : World * list pair :=
  match msgs with
  | [] => (w, res)
  | msg :: rest =>
      match render_turn msg w with
      | (w', Ok (Some p)) => render_loop rest (res ++ [p]) w'
      | (w', Ok None) => render_loop rest res w'
      | (w', Raise _) => render_loop rest res w'
      end
  end.

(** Lines 212 to 238 of [process_input]: [res = []], the loop, [return res].
    The messages are a list: line 184 has called [append] on them. *)
Definition render_transcript `{Lib} (st : state) : W (list pair) :=
  fun w =>
    match subscript st "messages" with
    | Ok (PList msgs) => let '(w', res) := render_loop msgs [] w in (w', Ok res)
    | Ok _ => (w, Raise TypeError)
    | Raise e => (w, Raise e)
    end.

(** ** Running the agent loop *)

(** [list.append] *)
Definition list_append (l : list pyval) (x : pyval) : list pyval := l ++ [x].

(** [state["messages"].append(msg)] *)
Definition messages_append (msg : pyval) : M unit :=
  let* messages := state_get "messages" in
  match messages with
  | PList l => state_set "messages" (PList (list_append l msg))
  | _ => raise AttributeError
  end.

(** A turn: [{"role": role, "content": content}] *)
Definition turn (role : Sender) (content : list pyval) : pyval :=
  PDict [("role", PStr (Sender_value role)); ("content", PList content)].

(** The turn [process_input] builds from the user's text. *)
Definition user_turn (user_input : string) : pyval :=
  turn USER [PTextBlock user_input].

(** Lines 184 to 189 of [process_input] *)
Definition append_user_turn (user_input : string) : M unit :=
  messages_append (user_turn user_input).

(** [state.get("api_key")] is falsy *)
Definition api_key_missing (st : state) : bool :=
  negb (py_truthy (default PNone (st !! "api_key"))).

(** [sampling_loop_wrapper] *)
Definition sampling_loop_wrapper `{Lib} : ST (state * World) unit :=
  fun '(st, w) =>
    if api_key_missing st then (st, w, Raise ValueError)
    else
      let args :=
        let? system_prompt_suffix := subscript st "custom_system_prompt" in
        let? model := subscript st "model" in
        let? provider := subscript st "provider" in
        let? messages := subscript st "messages" in
        let? tools := subscript st "tools" in
        let? responses := subscript st "responses" in
        let? api_key := subscript st "api_key" in
        let? only_n := subscript st "only_n_most_recent_images" in
        Ok (sampling_loop system_prompt_suffix model provider messages tools responses
              api_key only_n) in
      match args with
      | Raise e => (st, w, Raise e)
      | Ok run =>
          let '(w', ((messages', tools', responses'), outcome)) := run w in
          (<["responses" := responses']>
             (<["tools" := tools']> (<["messages" := messages']> st)), w', outcome)
      end.

(** [process_input] *)
Definition process_input `{Lib} (user_input : string) : ST (state * World) (list pair) :=
  fun '(st, w) =>
    match (setup_state w ;; append_user_turn user_input) st with
    | (st1, Raise e) => (st1, w, Raise e)
    | (st1, Ok _) =>
        match sampling_loop_wrapper (st1, w) with
        | (st2, w2, Raise e) => (st2, w2, Raise e)
        | (st2, w2, Ok _) =>
            let '(w3, r) := render_transcript st2 w2 in (st2, w3, r)
        end
    end.

(** ** The archives of the callbacks *)

(** [d[key] = v] on the entries of a dict: the value is replaced where the
    key is, a new key goes to the end. *)
Fixpoint dict_setitem (entries : list (string * pyval)) (key : string) (v : pyval)
  : list (string * pyval) :=
  match entries with
  | [] => [(key, v)]
  | (k, x) :: rest =>
      if String.eqb key k then (k, v) :: rest
      else (k, x) :: dict_setitem rest key v
  end.

(** [target[key] = v] for a str key; the mutated target. *)
Definition setitem_str (target : pyval) (key : string) (v : pyval) : result pyval :=
  match target with
  | PDict entries => Ok (PDict (dict_setitem entries key v))
  | _ => Raise TypeError
  end.

(** [_tool_output_callback]: the tool archive it leaves. *)
Definition _tool_output_callback (tool_output : pyval) (tool_id : string)
    (tool_state : pyval) : result pyval :=
  setitem_str tool_state tool_id tool_output.

Definition digitN (n : N) : ascii := ascii_of_N (48 + n mod 10).

Definition six_digits (n : N) : string :=
  String (digitN (n / 100000)) (String (digitN (n / 10000)) (String (digitN (n / 1000))
    (String (digitN (n / 100)) (String (digitN (n / 10)) (String (digitN n) ""))))).

(** [t.isoformat()]: the fraction is left out when it is zero. *)
Definition isoformat (t : datetime) : string :=
  four_digits (year t) ++ "-" ++ two_digits (month t) ++ "-" ++ two_digits (day t)
  ++ "T" ++ two_digits (hour t) ++ ":" ++ two_digits (minute t) ++ ":"
  ++ two_digits (second t)
  ++ (if (microsecond t =? 0)%N then "" else "." ++ six_digits (microsecond t)).

(** [_api_response_callback]: the response archive it leaves. *)
Definition _api_response_callback (response : pyval) (response_state : pyval) : W pyval :=
  let* stamp := now in
  let response_id := isoformat stamp in
  lift (setitem_str response_state response_id response).

(** ** Saving to the storage *)

(** What the file system refuses during one [save_to_storage]. *)
Inductive save_fault : Type :=
| NoFault
| MkdirFails      (* CONFIG_DIR cannot be created *)
| OpenFails       (* the file cannot be opened for writing *)
| ChmodFails.     (* the mode of the written file cannot be changed *)

Definition set_config_dir (w : World) (files : gmap string stored) : World :=
  mk_World (environ w) files (cwd w) (cwd_writable w) (clock w) (ticks w).

Definition CR : ascii := ascii_of_nat 13.
Definition LF : ascii := ascii_of_nat 10.

(** What [read_text] returns for the characters [write_text] wrote: a
    carriage return, alone or followed by a line feed, is read as one line
    feed. *)
Fixpoint universal_newlines (s : string) : string :=
  match s with
  | "" => ""
  | String c rest =>
      if Ascii.eqb c CR then
        match rest with
        | String c' rest' =>
            if Ascii.eqb c' LF then String LF (universal_newlines rest')
            else String LF (universal_newlines rest)
        | "" => String LF ""
        end
      else String c (universal_newlines rest)
  end.

(** [save_to_storage], on the world and the permission bits of the files of
    CONFIG_DIR: every exception is caught, and what was done before it
    stays.  The storage holds of each file the text [read_text] returns, so
    the written data is kept with its line ends as they are read back.  A
    file that could not be read before stays so when its mode cannot be
    changed. *)
Definition save_to_storage (fault : save_fault) (filename data : string)
    (disk : World * gmap string N) : World * gmap string N :=
  let '(w, modes) := disk in
  let written :=
    set_config_dir w (<[filename := FileText (universal_newlines data)]> (config_dir w)) in
  match fault with
  | MkdirFails | OpenFails => (w, modes)
  | ChmodFails =>
      match config_dir w !! filename with
      | Some Unreadable => (w, modes)
      | _ => (written, modes)
      end
  | NoFault => (written, <[filename := 384%N]> modes)          (* 0o600 *)
  end.

(** ** Checking the credentials *)

(** What [validate_auth] takes from the cloud SDKs and from the other two
    members of [APIProvider], none of which is part of the sources. *)
Class Cloud : Type := mk_Cloud {
  APIProvider_BEDROCK : string;
  APIProvider_VERTEX : string;
  (** [import boto3] and the truth of [boto3.Session().get_credentials()] *)
  boto3_credentials : result bool;
  (** the two imports from [google.auth] *)
  google_auth_import : result unit;
  (** [google.auth.default(...)]: [Ok false] is [DefaultCredentialsError] *)
  google_auth_default : result bool
}.

(** [validate_auth]: the reason it returns, [None] when it falls off the end. *)
Definition validate_auth `{Lib} `{Cloud} (w : World) (provider api_key : pyval)
  : result (option string) :=
  let? anthropic :=
    if eq_str provider APIProvider_ANTHROPIC && negb (py_truthy api_key)
    then Ok (Some "Enter your Anthropic API key to continue.")
    else Ok None in
  match anthropic with
  | Some reason => Ok (Some reason)
  | None =>
      let? bedrock :=
        if eq_str provider APIProvider_BEDROCK then
          let? credentials := boto3_credentials in
          if negb credentials
          then Ok (Some "You must have AWS credentials set up to use the Bedrock API.")
          else Ok None
        else Ok None in
      match bedrock with
      | Some reason => Ok (Some reason)
      | None =>
          if eq_str provider APIProvider_VERTEX then
            let? _ := google_auth_import in
            if String.eqb (default "" (environ w !! "CLOUD_ML_REGION")) ""
            then Ok (Some "Set the CLOUD_ML_REGION environment variable to use the Vertex API.")
            else
              let? found := google_auth_default in
              if negb found
              then Ok (Some "Your google cloud credentials are not set up correctly.")
              else Ok None
          else Ok None
      end
  end.

(** * Definitions for the properties *)

(** ** The values bootstrap computes *)

(** The API key a fresh state is given. *)
Definition resolved_api_key (w : World) : string :=
  let found := str_or (load_from_storage w "api_key") (getenv w "ANTHROPIC_API_KEY" "") in
  if String.eqb found "" then "YOUR_API_KEY_HERE" else found.

(** The provider a fresh state is given. *)
Definition resolved_provider `{Lib} (w : World) : string :=
  match environ w !! "API_PROVIDER" with
  | Some v => if String.eqb v "" then APIProvider_ANTHROPIC else v
  | None => "anthropic"
  end.

(** The model [_reset_model] derives from the provider in the state. *)
Definition default_model `{Lib} (st : state) : result pyval :=
  let? provider := subscript st "provider" in
  match provider with
  | PStr p =>
      match PROVIDER_TO_DEFAULT_MODEL_NAME !! p with
      | Some name => Ok (PStr name)
      | None => Raise KeyError
      end
  | PList _ | PDict _ => Raise TypeError
  | _ => Raise KeyError
  end.

(** The model is the table's entry for the provider in the state. *)
Definition model_of_provider `{Lib} (st : state) : Prop :=
  exists p name,
    st !! "provider" = Some (PStr p)
    /\ PROVIDER_TO_DEFAULT_MODEL_NAME !! p = Some name
    /\ st !! "model" = Some (PStr name).

(** ** The configuration chain of the spec *)

(** The chain in the words of the spec: the stored value, then the one of
    the environment, then the placeholder. *)
Definition spec_priority_chain (stored env : option string) (placeholder : string) : string :=
  match stored, env with
  | Some s, _ => s
  | None, Some e => e
  | None, None => placeholder
  end.

(** A variable of the environment that is set and not empty. *)
Definition env_value (w : World) (name : string) : option string :=
  match environ w !! name with
  | Some v => if String.eqb v "" then None else Some v
  | None => None
  end.

(** What stands in for a provider that the environment does not name: the
    literal default of [os.getenv] when the variable is unset, the enum
    member when it is set to the empty string. *)
Definition provider_placeholder `{Lib} (w : World) : string :=
  match environ w !! "API_PROVIDER" with
  | Some _ => APIProvider_ANTHROPIC
  | None => "anthropic"
  end.

(** ** Guarded steps

    Every line of [setup_state] is a step [if key not in state: body] whose
    body stores one value under [key], or raises and stores nothing. *)
Definition Sets (key : string) (value : state -> result pyval) (body : M unit) : Prop :=
  forall st,
    body st = match value st with
              | Ok v => (<[key := v]> st, Ok tt)
              | Raise e => (st, Raise e)
              end.

(** A triple with a postcondition for the return and one for the raise. *)
Definition triple (P : state -> Prop) (m : M unit) (N E : state -> Prop) : Prop :=
  forall st, P st ->
    match m st with
    | (s, Ok _) => N s
    | (s, Raise _) => E s
    end.

(** An assertion that no store under a fresh key invalidates. *)
Definition Stable (Q : state -> Prop) : Prop :=
  forall st key v, st !! key = None -> Q st -> Q (<[key := v]> st).

(** [m'] run after [m] changes nothing. *)
Definition Settled (m m' : M unit) : Prop :=
  forall st, (m' (m st).1).1 = (m st).1.

(** [r] keeps every stable assertion, through return and raise. *)
Definition Monotone (r : M unit) : Prop :=
  forall Q, Stable Q -> triple Q r Q Q.

(** ** The outcome of each turn *)

(** What the loop appends for one turn: the pair of the body, nothing when
    the body appends nothing or raises; and the world the body leaves. *)
Definition turn_pair `{Lib} (msg : pyval) (w : World) : World * option pair :=
  match render_turn msg w with
  | (w', Ok o) => (w', o)
  | (w', Raise _) => (w', None)
  end.

Fixpoint turn_outcomes `{Lib} (msgs : list pyval) (w : World) : list (option pair) :=
  match msgs with
  | [] => []
  | msg :: rest => (turn_pair msg w).2 :: turn_outcomes rest (turn_pair msg w).1
  end.

(** The pair of a turn that opens with a text or a tool use of the model. *)
Definition plain_pair `{Lib} (msg : pyval) : option pair :=
  match first_block msg with
  | Ok (PTextBlock text) => Some (PStr text, PNone)
  | Ok (PBetaTextBlock text) => Some (PNone, PStr text)
  | Ok (PBetaToolUseBlock name input) =>
      Some (PNone, PStr ("Tool Use: " ++ name ++ nl ++ "Input: " ++ py_str input))
  | _ => None
  end.

(** ** Sample libraries, worlds and turns *)

(** The value of a character of the standard base64 alphabet. *)
Definition b64_value (c : ascii) : option nat :=
  let n := nat_of_ascii c in
  if ((65 <=? n) && (n <=? 90))%nat then Some (n - 65)%nat
  else if ((97 <=? n) && (n <=? 122))%nat then Some (n - 71)%nat
  else if ((48 <=? n) && (n <=? 57))%nat then Some (n + 4)%nat
  else if (n =? 43)%nat then Some 62%nat
  else if (n =? 47)%nat then Some 63%nat
  else None.

Definition is_pad (c : ascii) : bool := Ascii.eqb c "=".

(** A decoder for padded base64 in the standard alphabet, four characters at
    a time; it refuses everything else. *)
Fixpoint sample_b64decode (s : string) : option string :=
  match s with
  | "" => Some ""
  | String c1 (String c2 (String c3 (String c4 rest))) =>
      match b64_value c1, b64_value c2 with
      | Some v1, Some v2 =>
          let byte1 := ascii_of_nat (v1 * 4 + v2 / 16) in
          if is_pad c3 then
            if is_pad c4 && String.eqb rest "" then Some (String byte1 "") else None
          else
            match b64_value c3 with
            | Some v3 =>
                let byte2 := ascii_of_nat (v2 mod 16 * 16 + v3 / 4) in
                if is_pad c4 then
                  if String.eqb rest "" then Some (String byte1 (String byte2 "")) else None
                else
                  match b64_value c4, sample_b64decode rest with
                  | Some v4, Some bytes =>
                      let byte3 := ascii_of_nat (v3 mod 4 * 64 + v4) in
                      Some (String byte1 (String byte2 (String byte3 bytes)))
                  | _, _ => None
                  end
            | None => None
            end
      | _, _ => None
      end
  | _ => None
  end.

(** The eight bytes every PNG file starts with. *)
Definition png_signature : string :=
  String (ascii_of_nat 137) ("PNG" ++ String (ascii_of_nat 13) (String (ascii_of_nat 10)
    (String (ascii_of_nat 26) (String (ascii_of_nat 10) "")))).

(** A sample of what the imported modules provide: the provider table of
    the demo, the decoder above, every PNG taken for an image that can be
    opened, and an agent loop that returns at once. *)
Definition sample_lib : Lib := {|
  APIProvider_ANTHROPIC := "anthropic";
  PROVIDER_TO_DEFAULT_MODEL_NAME :=
    <["anthropic" := "claude-3-5-sonnet-20241022"]>
      (<["bedrock" := "anthropic.claude-3-5-sonnet-20241022-v2:0"]>
         (<["vertex" := "claude-3-5-sonnet-v2@20241022"]> ∅));
  str_of_object := fun _ => "<object>";
  b64decode := sample_b64decode;
  Image_open := String.prefix png_signature;
  sampling_loop := fun _ _ _ messages tools responses _ _ w =>
                     (w, ((messages, tools, responses), Ok tt))
|}.

(** A PNG image of one pixel, in base64, and its 67 bytes. *)
Definition tiny_png : string :=
  "iVBORw0KGgoAAAANSUhEUgAAAAEAAAABCAAAAAA6fptVAAAACklEQVR4nGNgAAAAAgABSK+kcQAAAABJRU5ErkJggg==".

Definition tiny_png_bytes : string :=
  Eval vm_compute in default "" (sample_b64decode tiny_png).

(** A clock that advances by one second at every reading, from 2024-11-03
    12:00:00. *)
Definition sample_clock (n : nat) : datetime :=
  mk_datetime 2024 11 3 12 (n / 60 mod 60) (n mod 60) 0.

Definition sample_world : World := {|
  environ := ∅; config_dir := ∅; cwd := ∅; cwd_writable := true;
  clock := sample_clock; ticks := 0
|}.

(** A clock that stands still. *)
Definition still_world : World := {|
  environ := ∅; config_dir := ∅; cwd := ∅; cwd_writable := true;
  clock := fun _ => mk_datetime 2024 11 3 12 0 0 0; ticks := 0
|}.

(** A clock read just before and just after 12:00:01. *)
Definition boundary_clock (n : nat) : datetime :=
  match n with
  | O => mk_datetime 2024 11 3 12 0 0 999990
  | _ => mk_datetime 2024 11 3 12 0 1 17
  end.

Definition boundary_world : World := {|
  environ := ∅; config_dir := ∅; cwd := ∅; cwd_writable := true;
  clock := boundary_clock; ticks := 0
|}.

(** A world whose storage and environment both name a key and a provider. *)
Definition configured_world : World := {|
  environ := <["ANTHROPIC_API_KEY" := "sk-env"]> (<["API_PROVIDER" := "bedrock"]> ∅);
  config_dir := <["api_key" := FileText "  sk-stored "]>
                  (<["provider" := FileText "vertex"]> ∅);
  cwd := ∅; cwd_writable := true; clock := sample_clock; ticks := 0
|}.

(** A turn of the assistant that holds one text. *)
Definition assistant_turn (text : string) : pyval := turn BOT [PBetaTextBlock text].

(** The turn the agent loop stores for a tool result that is a text. *)
Definition tool_text_turn (text : string) : pyval :=
  PDict [("role", PStr "user");
         ("content", PList [PDict [("type", PStr "tool_result");
                                   ("content", PList [PDict [("type", PStr "text");
                                                             ("text", PStr text)]]);
                                   ("tool_use_id", PStr "toolu_01");
                                   ("is_error", PBool false)]])].

(** The turn the agent loop stores for a tool result that is a screenshot. *)
Definition tool_image_turn (data : string) : pyval :=
  PDict [("role", PStr "user");
         ("content", PList [PDict [("type", PStr "tool_result");
                                   ("content", PList [PDict [("type", PStr "image");
                                                             ("source",
                                                              PDict [("type", PStr "base64");
                                                                     ("media_type", PStr "image/png");
                                                                     ("data", PStr data)])]]);
                                   ("tool_use_id", PStr "toolu_02");
                                   ("is_error", PBool false)]])].

(** ** More definitions for the properties *)

(** The keys [setup_state] fills, in its order. *)
Definition setup_keys : list string :=
  ["messages"; "api_key"; "provider"; "provider_radio"; "model"; "auth_validated";
   "responses"; "tools"; "only_n_most_recent_images"; "custom_system_prompt";
   "hide_images"].

(** The test of line 222: the first block is a dict whose first content
    part has the type "image". *)
Definition image_test (block : pyval) : result bool :=
  if isinstance_Dict block then
    let? inner := getitem_str block "content" in
    let? part := getitem_0 inner in
    let? type := getitem_str part "type" in
    Ok (eq_str type "image")
  else Ok false.

(** A turn that reaches the image branch of the loop. *)
Definition opens_with_image (msg : pyval) : bool :=
  match first_block msg with
  | Ok block =>
      negb (isinstance_TextBlock block) && negb (isinstance_BetaTextBlock block)
      && negb (isinstance_BetaToolUseBlock block)
      && match image_test block with Ok b => b | Raise _ => false end
  | Raise _ => false
  end.

(** A cloud in which every SDK call succeeds. *)
Definition sample_cloud : Cloud := {|
  APIProvider_BEDROCK := "bedrock";
  APIProvider_VERTEX := "vertex";
  boto3_credentials := Ok true;
  google_auth_import := Ok tt;
  google_auth_default := Ok true
|}.

(** A cloud without any credentials. *)
Definition bare_cloud : Cloud := {|
  APIProvider_BEDROCK := "bedrock";
  APIProvider_VERTEX := "vertex";
  boto3_credentials := Ok false;
  google_auth_import := Raise OSError;
  google_auth_default := Ok false
|}.

(** A world whose environment names a provider that has no model. *)
Definition unknown_provider_world : World := {|
  environ := <["API_PROVIDER" := "openai"]> ∅; config_dir := ∅; cwd := ∅;
  cwd_writable := true; clock := sample_clock; ticks := 0
|}.

(** A world whose working directory cannot be written. *)
Definition read_only_world : World := {|
  environ := ∅; config_dir := ∅; cwd := ∅; cwd_writable := false;
  clock := sample_clock; ticks := 0
|}.

(** A triple whose postcondition for the raise sees the exception. *)
Definition triple_exn (P : state -> Prop) (m : M unit) (N : state -> Prop)
    (E : exn -> state -> Prop) : Prop :=
  forall st, P st ->
    match m st with
    | (s, Ok _) => N s
    | (s, Raise e) => E e s
    end.

(** The keys [setup_state] fills after the model. *)
Definition keys_after_model : list string :=
  ["auth_validated"; "responses"; "tools"; "only_n_most_recent_images";
   "custom_system_prompt"; "hide_images"].

(** The keys [setup_state] fills before the model. *)
Definition keys_before_model : list string :=
  ["messages"; "api_key"; "provider"; "provider_radio"].

(** The test [is_tool_result] of [_render_message]. *)
Definition tool_result_like (message : pyval) : bool :=
  negb (isinstance_str message)
  && (isinstance_ToolResult message
      || String.eqb (class_name message) "ToolResult"
      || String.eqb (class_name message) "CLIResult").

(** The text shown for a tool use. *)
Definition tool_use_text `{Lib} (name : string) (input : pyval) : string :=
  "Tool Use: " ++ name ++ nl ++ "Input: " ++ py_str input.

(** The image branch of the loop, lines 223 to 228. *)
Definition render_image `{Lib} (block : pyval) : W (option pair) :=
  write_file "D:\msg.txt" (Dump (py_str block)) ;;
  let* data :=
    lift (let? inner := getitem_str block "content" in
          let? part := getitem_0 inner in
          let? source := getitem_str part "source" in
          getitem_str source "data") in
  let* image_path := decode_base64_image data in
  ret (Some (PNone, PImage image_path)).

(** The first block of the turn the agent loop stores for a screenshot. *)
Definition tool_image_block (data : string) : pyval :=
  PDict [("type", PStr "tool_result");
         ("content", PList [PDict [("type", PStr "image");
                                   ("source",
                                    PDict [("type", PStr "base64");
                                           ("media_type", PStr "image/png");
                                           ("data", PStr data)])]]);
         ("tool_use_id", PStr "toolu_02");
         ("is_error", PBool false)].

(** Whether a character occurs in a string. *)
Fixpoint occurs (c : ascii) (s : string) : bool :=
  match s with
  | "" => false
  | String a rest => Ascii.eqb a c || occurs c rest
  end.

(** * Properties *)

(** ** Reasoning about guarded steps *)

Lemma triple_seq P m r N' N E :
  triple P m N' E -> triple N' r N E -> triple P (m ;; r) N E.
Proof.
  intros Hm Hr st HP. unfold bind.
  specialize (Hm st HP). destruct (m st) as [s [[]|e]]; [|exact Hm].
  apply Hr, Hm.
Qed.

Lemma triple_step key value body P (N E : state -> Prop) :
  Sets key value body ->
  (forall st, P st -> st !! key <> None -> N st) ->
  (forall st v, P st -> st !! key = None -> value st = Ok v -> N (<[key := v]> st)) ->
  (forall st e, P st -> st !! key = None -> value st = Raise e -> E st) ->
  triple P (if_not_in key body) N E.
Proof.
  intros HS Hin Hok Hraise st HP. unfold if_not_in.
  destruct (st !! key) as [x|] eqn:Hk.
  - apply Hin; [exact HP | congruence].
  - rewrite (HS st). destruct (value st) as [v|e] eqn:Hv.
    + by apply Hok.
    + by apply (Hraise st e).
Qed.

Lemma triple_stable key value body Q (E : state -> Prop) :
  Sets key value body -> Stable Q ->
  (forall st e, value st = Raise e -> Q st -> E st) ->
  triple Q (if_not_in key body) Q E.
Proof.
  intros HS HQ HE. apply (triple_step key value body); [exact HS | auto | | eauto].
  intros st v Hq Hk _. by apply HQ.
Qed.

Lemma triple_weaken P m (N E N' E' : state -> Prop) :
  triple P m N E -> (forall s, N s -> N' s) -> (forall s, E s -> E' s) ->
  triple P m N' E'.
Proof.
  intros Hm HN HE st HP. specialize (Hm st HP).
  destruct (m st) as [s [[]|e]]; auto.
Qed.

Lemma Stable_lookup key v : Stable (fun st => st !! key = Some v).
Proof.
  intros st k x Hk Hq. rewrite lookup_insert_ne; [exact Hq | congruence].
Qed.

Lemma Stable_and Q1 Q2 : Stable Q1 -> Stable Q2 -> Stable (fun st => Q1 st /\ Q2 st).
Proof. intros H1 H2 st k v Hk [Ha Hb]. split; [by apply H1 | by apply H2]. Qed.

Lemma Stable_ex {A} (Q : A -> state -> Prop) :
  (forall a, Stable (Q a)) -> Stable (fun st => exists a, Q a st).
Proof. intros HQ st k v Hk [a Ha]. exists a. by apply HQ. Qed.

Lemma Stable_const (X : Prop) : Stable (fun _ => X).
Proof. by intros st k v _ HX. Qed.

(** A step for another key leaves an absent key absent. *)
Lemma triple_absent key value body other (E : state -> Prop) :
  Sets key value body -> key <> other ->
  (forall st e, value st = Raise e -> st !! other = None -> E st) ->
  triple (fun st => st !! other = None) (if_not_in key body)
         (fun st => st !! other = None) E.
Proof.
  intros HS Hne HE. apply (triple_step key value body); [exact HS | auto | | eauto].
  intros st v Hq _ _. by rewrite lookup_insert_ne.
Qed.

(** The bodies of [setup_state]. *)

Lemma Sets_state_set key v : Sets key (fun _ => Ok v) (state_set key v).
Proof. by intros st. Qed.

Lemma Sets_api_key w :
  Sets "api_key" (fun _ => Ok (PStr (resolved_api_key w)))
    (state_set "api_key"
       (PStr (str_or (load_from_storage w "api_key") (getenv w "ANTHROPIC_API_KEY" ""))) ;;
     let* key := state_get "api_key" in
     if negb (py_truthy key) then state_set "api_key" (PStr "YOUR_API_KEY_HERE")
     else ret tt).
Proof.
  intros st. unfold bind, state_set, state_get, subscript, resolved_api_key, ret.
  rewrite lookup_insert_eq. cbn.
  destruct (String.eqb _ ""); cbn; [by rewrite insert_insert_eq | done].
Qed.

Lemma Sets_provider_radio :
  Sets "provider_radio" (fun st => subscript st "provider")
    (let* provider := state_get "provider" in state_set "provider_radio" provider).
Proof.
  intros st. unfold bind, state_get, state_set.
  by destruct (subscript st "provider").
Qed.

Lemma Sets_reset_model `{Lib} : Sets "model" default_model _reset_model.
Proof.
  intros st. unfold _reset_model, default_model, bind, state_get, rbind.
  destruct (subscript st "provider") as [[]|]; try done.
  by destruct (PROVIDER_TO_DEFAULT_MODEL_NAME !! s).
Qed.

Create HintDb setup discriminated.
#[local] Hint Resolve Sets_state_set Sets_api_key Sets_provider_radio Sets_reset_model : setup.
#[local] Hint Resolve Stable_lookup Stable_and Stable_ex Stable_const : setup.

(** Runs a stable assertion through all the steps that are left. *)
Ltac cannot_raise := first [ by intros ? ? [=] | by auto ].

Ltac through_steps :=
  repeat (eapply triple_seq;
          [eapply triple_stable; [eauto with setup | eauto with setup | cannot_raise] |]);
  eapply triple_stable; [eauto with setup | eauto with setup | cannot_raise].

(** Runs past one step that cannot touch the absent key of the assertion. *)
Ltac skip_step :=
  eapply triple_seq;
  [eapply triple_absent; [eauto with setup | discriminate | cannot_raise] |].

Lemma setup_state_stable `{Lib} w Q :
  Stable Q -> triple Q (setup_state w) Q Q.
Proof. intros HQ. unfold setup_state. through_steps. Qed.

Lemma setup_state_keeps `{Lib} w (st : state) key v :
  st !! key = Some v -> (setup_state w st).1 !! key = Some v.
Proof.
  intros Hk.
  pose proof (setup_state_stable w _ (Stable_lookup key v) st Hk) as Hs.
  by destruct (setup_state w st) as [s [[]|e]].
Qed.

(** ** Running the bootstrap twice *)

Lemma Monotone_lookup r (st : state) key v :
  Monotone r -> st !! key = Some v -> (r st).1 !! key = Some v.
Proof.
  intros Hr Hk. pose proof (Hr _ (Stable_lookup key v) st Hk) as Hs.
  by destruct (r st) as [s [[]|e]].
Qed.

Lemma Settled_step key value value' body body' :
  Sets key value body -> Sets key value' body' ->
  (forall st, is_ok (value st) = is_ok (value' st)) ->
  Settled (if_not_in key body) (if_not_in key body').
Proof.
  intros HS HS' Hagree st. unfold if_not_in.
  destruct (st !! key) as [x|] eqn:Hk; cbn.
  - by rewrite Hk.
  - rewrite (HS st). specialize (Hagree st).
    destruct (value st) as [v|e]; cbn.
    + by rewrite lookup_insert_eq.
    + rewrite Hk, (HS' st). by destruct (value' st).
Qed.

Lemma Settled_seq key value value' body body' r r' :
  Sets key value body -> Sets key value' body' ->
  (forall st, is_ok (value st) = is_ok (value' st)) ->
  Monotone r -> Settled r r' ->
  Settled (if_not_in key body ;; r) (if_not_in key body' ;; r').
Proof.
  intros HS HS' Hagree Hmono Hr st. unfold bind at 2 3. unfold if_not_in at 2 3.
  destruct (st !! key) as [x|] eqn:Hk.
  - pose proof (Monotone_lookup r st key x Hmono Hk) as Hkept.
    unfold bind, if_not_in. rewrite Hkept. apply Hr.
  - rewrite (HS st). specialize (Hagree st).
    destruct (value st) as [v|e]; cbn.
    + pose proof (Monotone_lookup r (<[key := v]> st) key v Hmono
                    (lookup_insert_eq _ _ _)) as Hkept.
      unfold bind, if_not_in. rewrite Hkept. apply Hr.
    + unfold bind, if_not_in. rewrite Hk, (HS' st). by destruct (value' st).
Qed.

Lemma setup_state_settled `{Lib} w w' : Settled (setup_state w) (setup_state w').
Proof.
  unfold setup_state.
  repeat (eapply Settled_seq;
          [eauto with setup | eauto with setup | intros; reflexivity
          | intros Q HQ; through_steps | ]).
  eapply Settled_step; [eauto with setup | eauto with setup | intros; reflexivity].
Qed.

(** C7.  Bootstrap is idempotent: after one call of [setup_state] a second
    call, even in a changed environment, leaves the state as it is; and no
    call resets or overwrites a field that is present. *)
Theorem setup_state_idempotent `{Lib} (w w' : World) (st : state) :
  (setup_state w' (setup_state w st).1).1 = (setup_state w st).1
  /\ (forall key v, st !! key = Some v -> (setup_state w st).1 !! key = Some v).
Proof.
  split.
  - apply setup_state_settled.
  - intros key v. apply setup_state_keeps.
Qed.

Lemma setup_state_idempotent_witness :
  let st : state := <["api_key" := PStr "sk-1"]> (<["provider" := PStr "bedrock"]> ∅) in
  st !! "provider" = Some (PStr "bedrock")
  /\ (@setup_state sample_lib sample_world st).1 !! "provider" = Some (PStr "bedrock")
  /\ (@setup_state sample_lib still_world
        (@setup_state sample_lib sample_world st).1).1
     = (@setup_state sample_lib sample_world st).1.
Proof.
  intros st.
  destruct (@setup_state_idempotent sample_lib sample_world still_world st) as [Hsame Hkeep].
  split; [reflexivity|]. split; [|exact Hsame].
  apply Hkeep. reflexivity.
Defined.

(** ** The values bootstrap gives to missing fields *)

Lemma load_from_storage_not_blank w filename s :
  load_from_storage w filename = Some s -> s <> "".
Proof.
  unfold load_from_storage.
  destruct (config_dir w !! filename) as [[text|]|]; try discriminate.
  destruct (String.eqb (strip text) "") eqn:Hb; [discriminate|].
  intros [= <-]. by apply String.eqb_neq.
Qed.

Lemma resolved_api_key_chain w :
  resolved_api_key w =
  spec_priority_chain (load_from_storage w "api_key") (env_value w "ANTHROPIC_API_KEY")
    "YOUR_API_KEY_HERE".
Proof.
  unfold resolved_api_key, spec_priority_chain, str_or, env_value, getenv.
  destruct (load_from_storage w "api_key") as [s|] eqn:Hs.
  - apply load_from_storage_not_blank in Hs. apply String.eqb_neq in Hs.
    by rewrite !Hs.
  - destruct (environ w !! "ANTHROPIC_API_KEY") as [v|]; [|done].
    by destruct (String.eqb v "").
Qed.

(** The step that fills the absent key of the assertion. *)
Lemma triple_fresh key value body (N E : state -> Prop) :
  Sets key value body ->
  (forall st v, st !! key = None -> value st = Ok v -> N (<[key := v]> st)) ->
  (forall st e, st !! key = None -> value st = Raise e -> E st) ->
  triple (fun st => st !! key = None) (if_not_in key body) N E.
Proof.
  intros HS HN HE. apply (triple_step key value body); [exact HS | | |].
  - intros st Hnone Hsome. by destruct Hsome.
  - intros st v _ Hnone Hv. by apply HN.
  - intros st e _ Hnone Hv. by apply (HE st e).
Qed.

Lemma setup_state_api_key `{Lib} w :
  triple (fun st => st !! "api_key" = None) (setup_state w)
         (fun st => st !! "api_key" = Some (PStr (resolved_api_key w)))
         (fun st => st !! "api_key" = Some (PStr (resolved_api_key w))).
Proof.
  unfold setup_state. skip_step.
  eapply (triple_seq _ _ _ (fun st => st !! "api_key" = Some (PStr (resolved_api_key w)))).
  { apply (triple_fresh _ _ _ _ _ (Sets_api_key w)).
    - intros st v _ [= <-]. apply lookup_insert_eq.
    - intros st e _ [=]. }
  through_steps.
Qed.

Lemma resolved_provider_eq `{Lib} w :
  str_or (Some (getenv w "API_PROVIDER" "anthropic")) APIProvider_ANTHROPIC
  = resolved_provider w.
Proof.
  unfold resolved_provider, str_or, getenv.
  by destruct (environ w !! "API_PROVIDER").
Qed.

Lemma setup_state_provider `{Lib} w :
  triple (fun st => st !! "provider" = None) (setup_state w)
         (fun st => st !! "provider" = Some (PStr (resolved_provider w)))
         (fun st => st !! "provider" = Some (PStr (resolved_provider w))).
Proof.
  unfold setup_state. do 2 skip_step.
  eapply (triple_seq _ _ _ (fun st => st !! "provider" = Some (PStr (resolved_provider w)))).
  { apply (triple_fresh _ _ _ _ _ (Sets_state_set _ _)).
    - intros st v _ [= <-]. rewrite lookup_insert_eq.
      do 2 f_equal. apply resolved_provider_eq.
    - intros st e _ [=]. }
  through_steps.
Qed.

(** A field with a fixed default that comes after the model: it is filled
    when bootstrap gets that far. *)
Lemma setup_state_custom_system_prompt `{Lib} w :
  triple (fun st => st !! "custom_system_prompt" = None) (setup_state w)
         (fun st => st !! "custom_system_prompt"
                    = Some (PStr (str_or (load_from_storage w "system_prompt") "")))
         (fun _ => True).
Proof.
  unfold setup_state. do 9 skip_step.
  eapply (triple_seq _ _ _ (fun st => st !! "custom_system_prompt" = Some (PStr (str_or (load_from_storage w "system_prompt") "")))).
  { apply (triple_fresh _ _ _ _ _ (Sets_state_set _ _)).
    - intros st v _ [= <-]. apply lookup_insert_eq.
    - intros st e _ [=]. }
  through_steps.
Qed.

Lemma setup_state_only_n `{Lib} w :
  triple (fun st => st !! "only_n_most_recent_images" = None) (setup_state w)
         (fun st => st !! "only_n_most_recent_images" = Some (PInt 10))
         (fun _ => True).
Proof.
  unfold setup_state. do 8 skip_step.
  eapply (triple_seq _ _ _ (fun st => st !! "only_n_most_recent_images" = Some (PInt 10))).
  { apply (triple_fresh _ _ _ _ _ (Sets_state_set _ _)).
    - intros st v _ [= <-]. apply lookup_insert_eq.
    - intros st e _ [=]. }
  through_steps.
Qed.

Lemma setup_state_hide_images `{Lib} w :
  triple (fun st => st !! "hide_images" = None) (setup_state w)
         (fun st => st !! "hide_images" = Some (PBool false))
         (fun _ => True).
Proof.
  unfold setup_state. do 10 skip_step.
  apply (triple_fresh _ _ _ _ _ (Sets_state_set _ _)).
  - intros st v _ [= <-]. apply lookup_insert_eq.
  - intros st e _ [=].
Qed.

Lemma Stable_model_of_provider `{Lib} : Stable model_of_provider.
Proof.
  intros st key v Hk (p & name & Hp & Ht & Hm). exists p, name.
  split; [|split]; [|exact Ht|]; (rewrite lookup_insert_ne; [done | congruence]).
Qed.
#[local] Hint Resolve Stable_model_of_provider : setup.

Lemma setup_state_model `{Lib} w :
  triple (fun st => st !! "model" = None) (setup_state w) model_of_provider (fun _ => True).
Proof.
  unfold setup_state. do 4 skip_step.
  eapply (triple_seq _ _ _ model_of_provider).
  { apply (triple_fresh _ _ _ _ _ Sets_reset_model); [|done].
    intros st v Hnone Hv. unfold default_model, rbind, subscript in Hv.
    destruct (st !! "provider") as [[]|] eqn:Hp; try discriminate.
    destruct (PROVIDER_TO_DEFAULT_MODEL_NAME !! s) as [name|] eqn:Ht; [|discriminate].
    injection Hv as <-. exists s, name.
    split; [|split]; [|exact Ht|apply lookup_insert_eq].
    by rewrite lookup_insert_ne. }
  through_steps.
Qed.

Lemma resolved_provider_chain `{Lib} w :
  resolved_provider w =
  spec_priority_chain None (env_value w "API_PROVIDER") (provider_placeholder w).
Proof.
  unfold resolved_provider, spec_priority_chain, env_value, provider_placeholder.
  destruct (environ w !! "API_PROVIDER") as [v|]; [|done].
  by destruct (String.eqb v "").
Qed.

Lemma str_or_chain w filename :
  str_or (load_from_storage w filename) "" =
  spec_priority_chain (load_from_storage w filename) None "".
Proof.
  unfold str_or, spec_priority_chain.
  destruct (load_from_storage w filename) as [s|] eqn:Hs; [|done].
  apply load_from_storage_not_blank in Hs. apply String.eqb_neq in Hs. by rewrite Hs.
Qed.

Lemma triple_run P m N E (st : state) :
  triple P m N E -> P st -> is_ok (m st).2 = true -> N (m st).1.
Proof.
  intros Hm HP Hok. specialize (Hm st HP).
  by destruct (m st) as [s [[]|e]].
Qed.

Lemma triple_run_any P m N (st : state) :
  triple P m N N -> P st -> N (m st).1.
Proof.
  intros Hm HP. specialize (Hm st HP).
  by destruct (m st) as [s [[]|e]].
Qed.

(** C8, as the code has it.  Bootstrap fills each missing configuration
    field in its own way: the API key by the whole chain (the stored file,
    then the environment, then the placeholder); the provider from the
    environment and then a default, without looking at the storage; the
    system prompt suffix from the storage and then the empty string, without
    looking at the environment; the model from the table entry of the
    provider; the image limit and the image flag as the constants 10 and
    False.  The fields that come after the model are filled when bootstrap
    returns. *)
Theorem setup_state_resolution `{Lib} (w : World) (st : state) :
  (st !! "api_key" = None ->
   (setup_state w st).1 !! "api_key" =
   Some (PStr (spec_priority_chain (load_from_storage w "api_key")
                 (env_value w "ANTHROPIC_API_KEY") "YOUR_API_KEY_HERE")))
  /\ (st !! "provider" = None ->
      (setup_state w st).1 !! "provider" =
      Some (PStr (spec_priority_chain None (env_value w "API_PROVIDER")
                    (provider_placeholder w))))
  /\ (st !! "custom_system_prompt" = None -> is_ok (setup_state w st).2 = true ->
      (setup_state w st).1 !! "custom_system_prompt" =
      Some (PStr (spec_priority_chain (load_from_storage w "system_prompt") None "")))
  /\ (st !! "model" = None -> is_ok (setup_state w st).2 = true ->
      model_of_provider (setup_state w st).1)
  /\ (st !! "only_n_most_recent_images" = None -> is_ok (setup_state w st).2 = true ->
      (setup_state w st).1 !! "only_n_most_recent_images" = Some (PInt 10))
  /\ (st !! "hide_images" = None -> is_ok (setup_state w st).2 = true ->
      (setup_state w st).1 !! "hide_images" = Some (PBool false)).
Proof.
  repeat split.
  - intros Hnone. rewrite <- resolved_api_key_chain.
    exact (triple_run_any _ _ _ st (setup_state_api_key w) Hnone).
  - intros Hnone. rewrite <- resolved_provider_chain.
    exact (triple_run_any _ _ _ st (setup_state_provider w) Hnone).
  - intros Hnone Hok. rewrite <- str_or_chain.
    exact (triple_run _ _ _ _ st (setup_state_custom_system_prompt w) Hnone Hok).
  - intros Hnone Hok.
    exact (triple_run _ _ _ _ st (setup_state_model w) Hnone Hok).
  - intros Hnone Hok.
    exact (triple_run _ _ _ _ st (setup_state_only_n w) Hnone Hok).
  - intros Hnone Hok.
    exact (triple_run _ _ _ _ st (setup_state_hide_images w) Hnone Hok).
Qed.

Lemma setup_state_resolution_witness :
  (@setup_state sample_lib configured_world ∅).1 !! "api_key" = Some (PStr "sk-stored")
  /\ (@setup_state sample_lib configured_world ∅).1 !! "provider" = Some (PStr "bedrock")
  /\ (@setup_state sample_lib configured_world ∅).1 !! "custom_system_prompt"
     = Some (PStr "")
  /\ (@setup_state sample_lib configured_world ∅).1 !! "only_n_most_recent_images"
     = Some (PInt 10)
  /\ (@setup_state sample_lib configured_world ∅).1 !! "hide_images" = Some (PBool false).
Proof.
  destruct (@setup_state_resolution sample_lib configured_world ∅)
    as (Hkey & Hprovider & Hprompt & _ & Hn & Hhide).
  split; [exact (Hkey eq_refl)|].
  split; [exact (Hprovider eq_refl)|].
  split; [exact (Hprompt eq_refl eq_refl)|].
  split; [exact (Hn eq_refl eq_refl) | exact (Hhide eq_refl eq_refl)].
Defined.

(** C8 as stated fails: the provider is not looked up in the storage.  With
    a stored provider and no variable in the environment the chain of the
    spec yields the stored value, the code the literal default. *)
Lemma provider_not_read_from_storage :
  let w := {| environ := ∅; config_dir := <["provider" := FileText "bedrock"]> ∅;
              cwd := ∅; cwd_writable := true; clock := sample_clock; ticks := 0 |} in
  spec_priority_chain (load_from_storage w "provider") (env_value w "API_PROVIDER")
    "anthropic" = "bedrock"
  /\ (@setup_state sample_lib w ∅).1 !! "provider" = Some (PStr "anthropic").
Proof. split; reflexivity. Qed.

(** C9, as the code has it.  When the state has no API key before bootstrap,
    it has a non-empty one after it (the placeholder when neither the storage
    nor the environment supplies one), and the guard of
    [sampling_loop_wrapper] does not fire. *)
Theorem setup_state_api_key_present `{Lib} (w : World) (st : state) :
  st !! "api_key" = None ->
  exists key,
    (setup_state w st).1 !! "api_key" = Some (PStr key)
    /\ key <> ""
    /\ api_key_missing (setup_state w st).1 = false
    /\ (load_from_storage w "api_key" = None ->
        env_value w "ANTHROPIC_API_KEY" = None -> key = "YOUR_API_KEY_HERE").
Proof.
  intros Hnone. exists (resolved_api_key w).
  pose proof (triple_run_any _ _ _ st (setup_state_api_key w) Hnone) as Hkey.
  cbn beta in Hkey.
  assert (Hne : String.eqb (resolved_api_key w) "" = false).
  { unfold resolved_api_key.
    destruct (String.eqb (str_or _ _) "") eqn:Hb; [reflexivity | exact Hb]. }
  split; [exact Hkey|]. split; [by apply String.eqb_neq|]. split.
  - unfold api_key_missing. rewrite Hkey. cbn. by rewrite Hne.
  - intros Hstored Henv. rewrite resolved_api_key_chain, Hstored, Henv. reflexivity.
Qed.

Lemma setup_state_api_key_present_witness :
  exists key,
    (@setup_state sample_lib sample_world ∅).1 !! "api_key" = Some (PStr key)
    /\ key <> ""
    /\ api_key_missing (@setup_state sample_lib sample_world ∅).1 = false
    /\ (load_from_storage sample_world "api_key" = None ->
        env_value sample_world "ANTHROPIC_API_KEY" = None -> key = "YOUR_API_KEY_HERE").
Proof. apply (@setup_state_api_key_present sample_lib sample_world ∅). reflexivity. Defined.

(** C9 as stated fails: bootstrap keeps an API key that is present, also an
    empty one, and then the guard of [sampling_loop_wrapper] fires. *)
Lemma empty_api_key_survives_bootstrap :
  let st : state := <["api_key" := PStr ""]> ∅ in
  (@setup_state sample_lib sample_world st).1 !! "api_key" = Some (PStr "")
  /\ api_key_missing (@setup_state sample_lib sample_world st).1 = true
  /\ (@sampling_loop_wrapper sample_lib
        ((@setup_state sample_lib sample_world st).1, sample_world)).2 = Raise ValueError
  /\ (@process_input sample_lib "hello" (st, sample_world)).2 = Raise ValueError.
Proof. repeat split; reflexivity. Qed.

(** ** The transcript, turn by turn *)

Lemma render_loop_cons `{Lib} msg rest res w :
  render_loop (msg :: rest) res w =
  render_loop rest (res ++ option_list (turn_pair msg w).2) (turn_pair msg w).1.
Proof.
  cbn [render_loop]. unfold turn_pair.
  destruct (render_turn msg w) as [w' [[p|]|e]]; cbn; by rewrite ?app_nil_r.
Qed.

Lemma render_loop_acc `{Lib} msgs res w :
  render_loop msgs res w =
  ((render_loop msgs [] w).1, (res ++ (render_loop msgs [] w).2)%list).
Proof.
  revert res w. induction msgs as [|msg rest IH]; intros res w.
  - cbn. by rewrite app_nil_r.
  - rewrite !render_loop_cons.
    rewrite (IH (res ++ _)%list), (IH ([] ++ _)%list). cbn. by rewrite app_assoc.
Qed.

Lemma render_loop_app `{Lib} pre post res w :
  render_loop (pre ++ post) res w =
  render_loop post (render_loop pre res w).2 (render_loop pre res w).1.
Proof.
  revert res w. induction pre as [|msg rest IH]; intros res w; [done|].
  rewrite <- app_comm_cons, !render_loop_cons. apply IH.
Qed.

Lemma render_loop_outcomes `{Lib} msgs w :
  (render_loop msgs [] w).2 = omap id (turn_outcomes msgs w).
Proof.
  revert w. induction msgs as [|msg rest IH]; intros w; [done|].
  rewrite render_loop_cons, render_loop_acc. cbn [snd turn_outcomes omap].
  rewrite IH. by destruct (turn_pair msg w).2.
Qed.

Lemma turn_outcomes_length `{Lib} msgs w : length (turn_outcomes msgs w) = length msgs.
Proof.
  revert w. induction msgs as [|msg rest IH]; intros w; [done|].
  cbn. by rewrite IH.
Qed.

Lemma omap_id_length {A} (l : list (option A)) : (length (omap id l) <= length l)%nat.
Proof.
  induction l as [|[a|] l IH]; cbn; lia.
Qed.

Lemma render_turn_plain `{Lib} msg p w :
  plain_pair msg = Some p -> render_turn msg w = (w, Ok (Some p)).
Proof.
  unfold plain_pair, render_turn, bind, lift.
  destruct (first_block msg) as [[]|]; try discriminate; by intros [= <-].
Qed.

Lemma render_loop_plain `{Lib} msgs w :
  Forall (fun msg => is_Some (plain_pair msg)) msgs ->
  render_loop msgs [] w = (w, omap plain_pair msgs).
Proof.
  intros Hall. revert w. induction Hall as [|msg rest [p Hp] _ IH]; intros w; [done|].
  rewrite render_loop_cons. unfold turn_pair.
  rewrite (render_turn_plain msg p w Hp). cbn [fst snd].
  rewrite render_loop_acc, IH. cbn. by rewrite Hp.
Qed.

Lemma omap_all_length {A B} (f : A -> option B) l :
  Forall (fun x => is_Some (f x)) l -> length (omap f l) = length l.
Proof.
  induction 1 as [|x l [y Hy] _ IH]; [done|]. cbn. rewrite Hy. cbn. by rewrite IH.
Qed.

(** ** Turns that raise *)

Lemma render_turn_no_first_block `{Lib} msg e w :
  first_block msg = Raise e -> render_turn msg w = (w, Raise e).
Proof. intros Hb. unfold render_turn, bind, lift. by rewrite Hb. Qed.

(** C5.  A turn whose body raises is skipped and the loop goes on: the
    projection is the pairs of the turns before it followed by the pairs of
    the turns after it, rendered in the world the failed body left.  When
    the access to the first block itself raises (no content key, an empty
    content, a wrong shape) nothing was touched, and the projection is that
    of the store without the turn. *)
Theorem malformed_turn_is_skipped `{Lib} (pre post : list pyval) (msg : pyval)
    (w w' : World) (e : exn) :
  (render_turn msg (render_loop pre [] w).1 = (w', Raise e) ->
   render_loop (pre ++ msg :: post) [] w =
   ((render_loop post [] w').1,
    ((render_loop pre [] w).2 ++ (render_loop post [] w').2)%list))
  /\ (first_block msg = Raise e ->
      render_loop (pre ++ msg :: post) [] w = render_loop (pre ++ post) [] w).
Proof.
  split.
  - intros Hraise. rewrite render_loop_app, render_loop_cons. unfold turn_pair.
    rewrite Hraise. cbn [fst snd option_list]. rewrite app_nil_r.
    apply render_loop_acc.
  - intros Hb. rewrite !render_loop_app, render_loop_cons. unfold turn_pair.
    rewrite (render_turn_no_first_block msg e _ Hb). cbn [fst snd option_list].
    by rewrite app_nil_r.
Qed.

Lemma malformed_turn_is_skipped_witness :
  let no_content := PDict [("role", PStr "user")] in
  let empty_content := PDict [("role", PStr "assistant"); ("content", PList [])] in
  @render_loop sample_lib ([user_turn "a"] ++ no_content :: [assistant_turn "b"]) []
    sample_world
  = (sample_world, [(PStr "a", PNone); (PNone, PStr "b")])
  /\ @render_loop sample_lib ([user_turn "a"] ++ empty_content :: [assistant_turn "b"]) []
       sample_world
     = @render_loop sample_lib ([user_turn "a"] ++ [assistant_turn "b"]) [] sample_world.
Proof.
  intros no_content empty_content. split.
  - apply (proj1 (@malformed_turn_is_skipped sample_lib [user_turn "a"]
                    [assistant_turn "b"] no_content sample_world sample_world KeyError)).
    reflexivity.
  - apply (proj2 (@malformed_turn_is_skipped sample_lib [user_turn "a"]
                    [assistant_turn "b"] empty_content sample_world sample_world
                    IndexError)).
    reflexivity.
Defined.

(** ** Texts *)

(** C6, as the code has it.  A turn that opens with a text is rendered by
    the class of the block: a [TextBlock], the block [process_input] builds
    from the user's input, goes to the left, and a [BetaTextBlock], the block
    of a response of the model, to the right.  The role of the turn is not
    read. *)
Theorem text_block_sides `{Lib} (msg : pyval) (text : string) (rest : list pyval)
    (res : list pair) (w : World) :
  (first_block msg = Ok (PTextBlock text) ->
   render_turn msg w = (w, Ok (Some (PStr text, PNone)))
   /\ render_loop (msg :: rest) res w = render_loop rest (res ++ [(PStr text, PNone)]) w)
  /\ (first_block msg = Ok (PBetaTextBlock text) ->
      render_turn msg w = (w, Ok (Some (PNone, PStr text)))
      /\ render_loop (msg :: rest) res w = render_loop rest (res ++ [(PNone, PStr text)]) w)
  /\ render_turn (user_turn text) w = (w, Ok (Some (PStr text, PNone)))
  /\ (forall role more,
        render_turn (turn role (PTextBlock text :: more)) w
        = (w, Ok (Some (PStr text, PNone)))
        /\ render_turn (turn role (PBetaTextBlock text :: more)) w
           = (w, Ok (Some (PNone, PStr text)))).
Proof.
  assert (Hleft : first_block msg = Ok (PTextBlock text) ->
                  render_turn msg w = (w, Ok (Some (PStr text, PNone)))).
  { intros Hb. unfold render_turn, bind, lift. by rewrite Hb. }
  assert (Hright : first_block msg = Ok (PBetaTextBlock text) ->
                   render_turn msg w = (w, Ok (Some (PNone, PStr text)))).
  { intros Hb. unfold render_turn, bind, lift. by rewrite Hb. }
  split; [|split; [|split]].
  - intros Hb. split; [by apply Hleft|]. cbn [render_loop]. by rewrite (Hleft Hb).
  - intros Hb. split; [by apply Hright|]. cbn [render_loop]. by rewrite (Hright Hb).
  - done.
  - by intros role more.
Qed.

Lemma text_block_sides_witness :
  (@render_turn sample_lib (user_turn "hello") sample_world
   = (sample_world, Ok (Some (PStr "hello", PNone)))
   /\ @render_loop sample_lib [user_turn "hello"] [] sample_world
      = (sample_world, [(PStr "hello", PNone)]))
  /\ (@render_turn sample_lib (assistant_turn "hello") sample_world
      = (sample_world, Ok (Some (PNone, PStr "hello")))
      /\ @render_loop sample_lib [assistant_turn "hello"] [] sample_world
         = (sample_world, [(PNone, PStr "hello")])).
Proof.
  split.
  - apply (proj1 (@text_block_sides sample_lib (user_turn "hello") "hello" [] []
                    sample_world)).
    reflexivity.
  - apply (proj1 (proj2 (@text_block_sides sample_lib (assistant_turn "hello") "hello"
                           [] [] sample_world))).
    reflexivity.
Defined.

(** C6 as stated fails: the side follows the class of the block and not
    the author.  A turn of the assistant that holds a [TextBlock] is rendered
    on the left, a turn of the user that holds a [BetaTextBlock] on the
    right. *)
Lemma text_side_ignores_role :
  let st : state :=
    <["messages" := PList [turn BOT [PTextBlock "hello"];
                           turn USER [PBetaTextBlock "hello"]]]> ∅ in
  (@render_transcript sample_lib st sample_world).2
  = Ok [(PStr "hello", PNone); (PNone, PStr "hello")]
  /\ (@process_input sample_lib "next" (st, sample_world)).2
     = Ok [(PStr "hello", PNone); (PNone, PStr "hello"); (PStr "next", PNone)].
Proof. split; reflexivity. Qed.

(** ** Tool results *)

Lemma subscript_present (st : state) key v :
  st !! key = Some v -> subscript st key = Ok v.
Proof. intros Hk. unfold subscript. by rewrite Hk. Qed.




(** ** Hidden images *)

(** In [_render_message] the flag is honoured: a [ToolResult] that holds
    only an image renders to nothing when [hide_images] is set, and the
    payload is not decoded. *)
Lemma render_message_hides_image `{Lib} sender (st : state) hide image :
  st !! "hide_images" = Some hide -> py_truthy hide = true ->
  _render_message sender (PToolResult None None image) st = Ok PNone.
Proof.
  intros Hhide Htrue. unfold _render_message. cbn.
  rewrite (subscript_present _ _ _ Hhide). cbn. rewrite !andb_false_r. cbn.
  destruct image as [payload|]; cbn; [|done].
  destruct (String.eqb payload ""); cbn; [done|]. by rewrite Htrue.
Qed.

(** So is it for an object that is a tool result by its class name only and
    has neither an [error] nor an [output] attribute: line 148 returns. *)
Lemma render_message_hides_bare_image `{Lib} sender (st : state) hide payload :
  st !! "hide_images" = Some hide -> py_truthy hide = true ->
  _render_message sender (PObject "ToolResult" [("base64_image", PStr payload)]) st
  = Ok PNone.
Proof.
  intros Hhide Htrue. unfold _render_message. cbn.
  rewrite (subscript_present _ _ _ Hhide). cbn. by rewrite Htrue.
Qed.

(** The loop of [process_input] never reads the flag. *)
Lemma render_transcript_ignores_flag `{Lib} (st : state) (flag : pyval) (w : World) :
  render_transcript (<["hide_images" := flag]> st) w = render_transcript st w.
Proof.
  unfold render_transcript, subscript. by rewrite lookup_insert_ne.
Qed.

(** C2, where the code departs from it.  With [hide_images] set and a
    stored tool result that holds only a screenshot, the projection decodes
    the image, saves it and yields a pair for it. *)
Theorem hidden_image_is_rendered :
  let st : state :=
    <["hide_images" := PBool true]>
      (<["messages" := PList [tool_image_turn tiny_png]]> ∅) in
  (@render_transcript sample_lib st still_world).2
  = Ok [(PNone, PImage "2024-11-03_12-00-00.png")]
  /\ cwd (@render_transcript sample_lib st still_world).1 !! "2024-11-03_12-00-00.png"
     = Some (Png tiny_png_bytes)
  /\ (@process_input sample_lib "next" (st, still_world)).2
     = Ok [(PNone, PImage "2024-11-03_12-00-00.png"); (PStr "next", PNone)].
Proof. repeat split; reflexivity. Qed.

(** ** The name of a saved image *)

(** What [decode_base64_image] does with a payload that decodes to an image:
    it saves under the first reading of the clock and returns the name made
    from the second. *)
Lemma decode_base64_image_names `{Lib} (s data : string) (w : World) :
  String.prefix "data:image" s = false ->
  b64decode s = Some data -> Image_open data = true -> cwd_writable w = true ->
  let saved := strftime_stamp (clock w (ticks w)) ++ ".png" in
  let returned := strftime_stamp (clock w (S (ticks w))) ++ ".png" in
  (decode_base64_image (PStr s) w).2 = Ok returned
  /\ cwd (decode_base64_image (PStr s) w).1 = <[saved := Png data]> (cwd w).
Proof.
  intros Hprefix Hdecode Himage Hwrite. unfold decode_base64_image, bind, ret.
  rewrite Hprefix, Hdecode, Himage. cbn. unfold write_file. cbn. rewrite Hwrite.
  by cbn.
Qed.

(** When both readings fall in the same second the returned name is the
    name of the file just saved. *)
Lemma decode_base64_image_same_second `{Lib} (s data : string) (w : World) :
  String.prefix "data:image" s = false ->
  b64decode s = Some data -> Image_open data = true -> cwd_writable w = true ->
  strftime_stamp (clock w (ticks w)) = strftime_stamp (clock w (S (ticks w))) ->
  exists name,
    (decode_base64_image (PStr s) w).2 = Ok name
    /\ cwd (decode_base64_image (PStr s) w).1 !! name = Some (Png data).
Proof.
  intros Hprefix Hdecode Himage Hwrite Hsame.
  destruct (decode_base64_image_names s data w Hprefix Hdecode Himage Hwrite)
    as [Hname Hfiles].
  eexists. split; [exact Hname|]. rewrite Hfiles, <- Hsame. apply lookup_insert_eq.
Qed.

(** C10, where the code departs from it.  When the second changes between
    the two readings of the clock, the name that is returned is not the name
    the image was saved under, and no file has the returned name. *)
Theorem returned_name_is_not_saved_name :
  (@decode_base64_image sample_lib (PStr tiny_png) boundary_world).2
  = Ok "2024-11-03_12-00-01.png"
  /\ cwd (@decode_base64_image sample_lib (PStr tiny_png) boundary_world).1
       !! "2024-11-03_12-00-00.png" = Some (Png tiny_png_bytes)
  /\ cwd (@decode_base64_image sample_lib (PStr tiny_png) boundary_world).1
       !! "2024-11-03_12-00-01.png" = None.
Proof. repeat split; reflexivity. Qed.

(** * Further properties *)

(** ** What bootstrap leaves in the state *)

Lemma triple_true key value body (E : state -> Prop) :
  Sets key value body -> (forall st e, value st = Raise e -> E st) ->
  triple (fun _ => True) (if_not_in key body) (fun _ => True) E.
Proof.
  intros HS HE. apply (triple_step key value body); [exact HS | done | done |].
  intros st e _ _ Hv. by apply (HE st e).
Qed.

Lemma triple_present key value body (E : state -> Prop) :
  Sets key value body -> (forall st e, value st = Raise e -> E st) ->
  triple (fun _ => True) (if_not_in key body) (fun st => is_Some (st !! key)) E.
Proof.
  intros HS HE. apply (triple_step key value body); [exact HS | | |].
  - intros st _ Hk. by destruct (st !! key).
  - intros st v _ _ _. rewrite lookup_insert_eq. by eexists.
  - intros st e _ _ Hv. by apply (HE st e).
Qed.

Lemma triple_frame key value body other x (E : state -> Prop) :
  Sets key value body -> key <> other ->
  (forall st e, value st = Raise e -> st !! other = x -> E st) ->
  triple (fun st => st !! other = x) (if_not_in key body)
         (fun st => st !! other = x) E.
Proof.
  intros HS Hne HE. apply (triple_step key value body); [exact HS | auto | | eauto].
  intros st v Hq _ _. by rewrite lookup_insert_ne.
Qed.

Lemma Stable_is_Some key : Stable (fun st => is_Some (st !! key)).
Proof.
  intros st k v Hk [x Hx]. exists x. rewrite lookup_insert_ne; [done | congruence].
Qed.
#[local] Hint Resolve Stable_is_Some : setup.

(** Runs past one step of which nothing is asked. *)
Ltac any_step :=
  eapply (triple_seq _ _ _ (fun _ => True));
  [eapply triple_true; [eauto with setup | cannot_raise] |].

(** The key of the step after [n] others is present when bootstrap returns. *)
Tactic Notation "present_after" integer(n) :=
  unfold setup_state; do n any_step;
  first [ eapply triple_seq;
          [eapply triple_present; [eauto with setup | cannot_raise] | through_steps]
        | eapply triple_present; [eauto with setup | cannot_raise] ].

Lemma setup_state_sets_messages `{Lib} w :
  triple (fun _ => True) (setup_state w)
         (fun st => is_Some (st !! "messages")) (fun _ => True).
Proof. present_after 0. Qed.

Lemma setup_state_sets_api_key `{Lib} w :
  triple (fun _ => True) (setup_state w)
         (fun st => is_Some (st !! "api_key")) (fun _ => True).
Proof. present_after 1. Qed.

Lemma setup_state_sets_provider `{Lib} w :
  triple (fun _ => True) (setup_state w)
         (fun st => is_Some (st !! "provider")) (fun _ => True).
Proof. present_after 2. Qed.

Lemma setup_state_sets_provider_radio `{Lib} w :
  triple (fun _ => True) (setup_state w)
         (fun st => is_Some (st !! "provider_radio")) (fun _ => True).
Proof. present_after 3. Qed.

Lemma setup_state_sets_model `{Lib} w :
  triple (fun _ => True) (setup_state w)
         (fun st => is_Some (st !! "model")) (fun _ => True).
Proof. present_after 4. Qed.

Lemma setup_state_sets_auth_validated `{Lib} w :
  triple (fun _ => True) (setup_state w)
         (fun st => is_Some (st !! "auth_validated")) (fun _ => True).
Proof. present_after 5. Qed.

Lemma setup_state_sets_responses `{Lib} w :
  triple (fun _ => True) (setup_state w)
         (fun st => is_Some (st !! "responses")) (fun _ => True).
Proof. present_after 6. Qed.

Lemma setup_state_sets_tools `{Lib} w :
  triple (fun _ => True) (setup_state w)
         (fun st => is_Some (st !! "tools")) (fun _ => True).
Proof. present_after 7. Qed.

Lemma setup_state_sets_only_n `{Lib} w :
  triple (fun _ => True) (setup_state w)
         (fun st => is_Some (st !! "only_n_most_recent_images")) (fun _ => True).
Proof. present_after 8. Qed.

Lemma setup_state_sets_custom_system_prompt `{Lib} w :
  triple (fun _ => True) (setup_state w)
         (fun st => is_Some (st !! "custom_system_prompt")) (fun _ => True).
Proof. present_after 9. Qed.

Lemma setup_state_sets_hide_images `{Lib} w :
  triple (fun _ => True) (setup_state w)
         (fun st => is_Some (st !! "hide_images")) (fun _ => True).
Proof. present_after 10. Qed.

(** X1.  When [setup_state] returns, the state holds every one of the
    eleven keys it is responsible for. *)
Theorem setup_state_complete `{Lib} (w : World) (st : state) :
  is_ok (setup_state w st).2 = true ->
  Forall (fun key => is_Some ((setup_state w st).1 !! key)) setup_keys.
Proof.
  intros Hok. unfold setup_keys.
  repeat apply Forall_cons_2; [.. | apply Forall_nil_2].
  - exact (triple_run _ _ _ _ st (setup_state_sets_messages w) I Hok).
  - exact (triple_run _ _ _ _ st (setup_state_sets_api_key w) I Hok).
  - exact (triple_run _ _ _ _ st (setup_state_sets_provider w) I Hok).
  - exact (triple_run _ _ _ _ st (setup_state_sets_provider_radio w) I Hok).
  - exact (triple_run _ _ _ _ st (setup_state_sets_model w) I Hok).
  - exact (triple_run _ _ _ _ st (setup_state_sets_auth_validated w) I Hok).
  - exact (triple_run _ _ _ _ st (setup_state_sets_responses w) I Hok).
  - exact (triple_run _ _ _ _ st (setup_state_sets_tools w) I Hok).
  - exact (triple_run _ _ _ _ st (setup_state_sets_only_n w) I Hok).
  - exact (triple_run _ _ _ _ st (setup_state_sets_custom_system_prompt w) I Hok).
  - exact (triple_run _ _ _ _ st (setup_state_sets_hide_images w) I Hok).
Qed.

Lemma setup_state_complete_witness :
  Forall (fun key => is_Some ((@setup_state sample_lib sample_world
                                 (<["provider" := PStr "vertex"]> ∅)).1 !! key))
         setup_keys.
Proof.
  apply (@setup_state_complete sample_lib sample_world (<["provider" := PStr "vertex"]> ∅)).
  reflexivity.
Defined.

(** ** When bootstrap raises *)

Lemma triple_pre (P P' : state -> Prop) m N E :
  (forall st, P st -> P' st) -> triple P' m N E -> triple P m N E.
Proof. intros HP Hm st Hst. apply Hm, HP, Hst. Qed.

Lemma triple_exn_head P m r N' N E :
  triple P m N' (fun _ => False) -> triple_exn N' r N E -> triple_exn P (m ;; r) N E.
Proof.
  intros Hm Hr st HP. unfold bind.
  specialize (Hm st HP). destruct (m st) as [s [[]|e]]; [|destruct Hm].
  apply Hr, Hm.
Qed.

Lemma triple_exn_tail P m r N' N E :
  triple_exn P m N' E -> triple N' r N (fun _ => False) -> triple_exn P (m ;; r) N E.
Proof.
  intros Hm Hr st HP. unfold bind.
  specialize (Hm st HP). destruct (m st) as [s [[]|e]]; [|exact Hm].
  specialize (Hr s Hm). by destruct (r s) as [s' [[]|e]].
Qed.

Lemma triple_exn_step key value body (E : exn -> state -> Prop) :
  Sets key value body ->
  (forall st e, st !! key = None -> value st = Raise e -> E e st) ->
  triple_exn (fun _ => True) (if_not_in key body) (fun _ => True) E.
Proof.
  intros HS HE st _. unfold if_not_in.
  destruct (st !! key) eqn:Hk; [done|].
  rewrite (HS st). destruct (value st) as [v|e] eqn:Hv; [done|]. by apply HE.
Qed.

(** The step for [provider_radio] cannot raise once the provider is set. *)
Lemma provider_radio_step (N : state -> Prop) :
  (forall st, is_Some (st !! "provider") -> is_Some (st !! "provider_radio") -> N st) ->
  triple (fun st => is_Some (st !! "provider"))
    (if_not_in "provider_radio"
       (let* provider := state_get "provider" in state_set "provider_radio" provider))
    N (fun _ => False).
Proof.
  intros HN. apply (triple_step _ _ _ _ _ _ Sets_provider_radio).
  - intros st Hp Hr. apply HN; [done|]. by destruct (st !! "provider_radio").
  - intros st v Hp _ _. apply HN.
    + by rewrite lookup_insert_ne.
    + rewrite lookup_insert_eq. by eexists.
  - intros st e [p Hp] _ Hv. unfold subscript in Hv. by rewrite Hp in Hv.
Qed.

Lemma setup_state_raise `{Lib} w :
  triple_exn (fun _ => True) (setup_state w) (fun _ => True)
    (fun e st => st !! "model" = None /\ default_model st = Raise e).
Proof.
  unfold setup_state.
  do 2 (eapply (triple_exn_head _ _ _ (fun _ => True));
        [eapply triple_true; [eauto with setup | cannot_raise] |]).
  eapply triple_exn_head;
    [eapply triple_present; [eauto with setup | cannot_raise] |].
  eapply (triple_exn_head _ _ _ (fun _ => True)); [by apply provider_radio_step |].
  eapply triple_exn_tail.
  - apply (triple_exn_step _ _ _ _ Sets_reset_model). by intros st e Hk Hv.
  - do 5 any_step. eapply triple_true; [eauto with setup | cannot_raise].
Qed.

Lemma default_model_raises `{Lib} (st : state) e :
  default_model st = Raise e -> e = KeyError \/ e = TypeError.
Proof.
  unfold default_model, rbind, subscript.
  destruct (st !! "provider") as [[]|]; intros Hv; try (injection Hv as <-; auto; fail).
  destruct (PROVIDER_TO_DEFAULT_MODEL_NAME !! s); [discriminate|].
  injection Hv as <-. auto.
Qed.

(** A field that comes after the model is as it was when bootstrap raises. *)
Lemma setup_state_frame_after `{Lib} w key x :
  key ∈ keys_after_model ->
  triple (fun st => st !! key = x) (setup_state w) (fun _ => True)
         (fun st => st !! key = x).
Proof.
  intros Hkey.
  assert (Hne : key <> "messages" /\ key <> "api_key" /\ key <> "provider"
                /\ key <> "provider_radio" /\ key <> "model").
  { unfold keys_after_model in Hkey. rewrite !elem_of_cons, elem_of_nil in Hkey.
    destruct Hkey as [-> | [-> | [-> | [-> | [-> | [-> | []]]]]]];
      repeat split; discriminate. }
  destruct Hne as (H1 & H2 & H3 & H4 & H5).
  unfold setup_state.
  do 5 (eapply triple_seq;
        [eapply triple_frame; [eauto with setup | by auto | cannot_raise] |]).
  eapply triple_pre; [by intros st _; exact I |].
  do 5 any_step. eapply triple_true; [eauto with setup | cannot_raise].
Qed.

(** The fields before the model are filled, also when bootstrap raises. *)
Lemma setup_state_before_model `{Lib} w key :
  key ∈ keys_before_model ->
  triple (fun _ => True) (setup_state w)
         (fun st => is_Some (st !! key)) (fun st => is_Some (st !! key)).
Proof.
  unfold keys_before_model. rewrite !elem_of_cons, elem_of_nil.
  intros [-> | [-> | [-> | [-> | []]]]]; unfold setup_state.
  - eapply triple_seq;
      [eapply triple_present; [eauto with setup | cannot_raise] | through_steps].
  - any_step. eapply triple_seq;
      [eapply triple_present; [eauto with setup | cannot_raise] | through_steps].
  - do 2 any_step. eapply triple_seq;
      [eapply triple_present; [eauto with setup | cannot_raise] | through_steps].
  - do 2 any_step.
    eapply triple_seq; [eapply triple_present; [eauto with setup | cannot_raise] |].
    eapply (triple_seq _ _ _ (fun st => is_Some (st !! "provider_radio"))).
    + eapply triple_weaken; [by apply (provider_radio_step
                                        (fun st => is_Some (st !! "provider_radio")))
                            | done | done].
    + through_steps.
Qed.

(** X2.  When [setup_state] raises, it is the lookup of the default model
    that raised, with a [KeyError] or a [TypeError]: the state has no model,
    the four fields before the model are filled, and the six fields after it
    are as they were. *)
Theorem setup_state_failure `{Lib} (w : World) (st : state) (e : exn) :
  (setup_state w st).2 = Raise e ->
  (setup_state w st).1 !! "model" = None
  /\ default_model (setup_state w st).1 = Raise e
  /\ (e = KeyError \/ e = TypeError)
  /\ Forall (fun key => is_Some ((setup_state w st).1 !! key)) keys_before_model
  /\ Forall (fun key => (setup_state w st).1 !! key = st !! key) keys_after_model.
Proof.
  intros Hraise.
  pose proof (setup_state_raise w st I) as Hm.
  assert (Hany : forall key, key ∈ keys_before_model ->
                             is_Some ((setup_state w st).1 !! key)).
  { intros key Hkey. exact (triple_run_any _ _ _ st (setup_state_before_model w key Hkey) I). }
  assert (Hframe : forall key, key ∈ keys_after_model ->
                               (setup_state w st).1 !! key = st !! key).
  { intros key Hkey.
    pose proof (setup_state_frame_after w key (st !! key) Hkey st eq_refl) as Hf.
    destruct (setup_state w st) as [s [[]|e']]; [discriminate | exact Hf]. }
  destruct (setup_state w st) as [s [[]|e']] eqn:Hrun; [discriminate|].
  cbn in *. injection Hraise as ->. destruct Hm as [Hnone Hdefault].
  split; [exact Hnone|]. split; [exact Hdefault|].
  split; [exact (default_model_raises _ _ Hdefault)|].
  split; apply Forall_forall; auto.
Qed.

Lemma setup_state_failure_witness :
  let st : state := <["tools" := PDict [("toolu_01", PNone)]]> ∅ in
  (@setup_state sample_lib unknown_provider_world st).1 !! "model" = None
  /\ (@setup_state sample_lib unknown_provider_world st).1 !! "tools"
     = Some (PDict [("toolu_01", PNone)])
  /\ (@setup_state sample_lib unknown_provider_world st).1 !! "hide_images" = None.
Proof.
  intros st.
  destruct (@setup_state_failure sample_lib unknown_provider_world st KeyError)
    as (Hmodel & _ & _ & _ & Hafter); [reflexivity|].
  rewrite Forall_forall in Hafter.
  split; [exact Hmodel|]. split.
  - rewrite (Hafter "tools"); [reflexivity|].
    unfold keys_after_model. rewrite !elem_of_cons. tauto.
  - rewrite (Hafter "hide_images"); [reflexivity|].
    unfold keys_after_model. rewrite !elem_of_cons. tauto.
Defined.

(** ** When bootstrap returns *)

Lemma setup_state_final_provider `{Lib} w (st : state) :
  st !! "provider" = None ->
  (setup_state w st).1 !! "provider" = Some (PStr (resolved_provider w)).
Proof. intros Hp. exact (triple_run_any _ _ _ st (setup_state_provider w) Hp). Qed.

Lemma default_model_known `{Lib} (st : state) p :
  st !! "provider" = Some (PStr p) ->
  default_model st = match PROVIDER_TO_DEFAULT_MODEL_NAME !! p with
                     | Some name => Ok (PStr name)
                     | None => Raise KeyError
                     end.
Proof. intros Hp. unfold default_model, subscript. by rewrite Hp. Qed.

(** X3.  [setup_state] returns whenever the state already has a model; on a
    state with neither provider nor model it returns exactly when the table
    of default models has an entry for the provider the environment
    resolves to. *)
Theorem setup_state_returns `{Lib} (w : World) (st : state) :
  (is_Some (st !! "model") -> is_ok (setup_state w st).2 = true)
  /\ (st !! "provider" = None -> st !! "model" = None ->
      (is_ok (setup_state w st).2 = true
       <-> is_Some (PROVIDER_TO_DEFAULT_MODEL_NAME !! resolved_provider w))).
Proof.
  split.
  - intros [m Hm].
    pose proof (setup_state_keeps w st "model" m Hm) as Hkept.
    pose proof (setup_state_raise w st I) as Hr.
    destruct (setup_state w st) as [s [[]|e]]; [done|].
    cbn in *. destruct Hr as [Hnone _]. congruence.
  - intros Hp Hm.
    pose proof (setup_state_final_provider w st Hp) as Hprov.
    split.
    + intros Hok.
      destruct (triple_run _ _ _ _ st (setup_state_model w) Hm Hok)
        as (p & name & Hp' & Ht & _).
      rewrite Hprov in Hp'. injection Hp' as <-. by exists name.
    + intros [name Ht].
      pose proof (setup_state_raise w st I) as Hr.
      destruct (setup_state w st) as [s [[]|e]]; [done|].
      cbn in *. destruct Hr as [_ Hd].
      rewrite (default_model_known s _ Hprov), Ht in Hd. discriminate.
Qed.

Lemma setup_state_returns_witness :
  is_ok (@setup_state sample_lib unknown_provider_world
           (<["model" := PStr "my-model"]> ∅)).2 = true
  /\ is_ok (@setup_state sample_lib configured_world ∅).2 = true.
Proof.
  split.
  - apply (proj1 (@setup_state_returns sample_lib unknown_provider_world
                    (<["model" := PStr "my-model"]> ∅))).
    by eexists.
  - apply (proj2 (@setup_state_returns sample_lib configured_world ∅));
      [reflexivity | reflexivity |].
    by eexists.
Defined.

Lemma Stable_mirror :
  Stable (fun st => exists v, st !! "provider" = Some v /\ st !! "provider_radio" = Some v).
Proof.
  intros st key x Hk (v & Hp & Hr). exists v.
  split; (rewrite lookup_insert_ne; [done | congruence]).
Qed.
#[local] Hint Resolve Stable_mirror : setup.

(** X4.  A [provider_radio] that bootstrap fills is the provider of the
    state, the one that was there or the one bootstrap resolved. *)
Theorem provider_radio_mirrors_provider `{Lib} (w : World) (st : state) :
  st !! "provider_radio" = None ->
  exists v, (setup_state w st).1 !! "provider" = Some v
            /\ (setup_state w st).1 !! "provider_radio" = Some v.
Proof.
  intros Hnone.
  refine (triple_run_any (fun s => s !! "provider_radio" = None) _
            (fun s => exists v, s !! "provider" = Some v
                                /\ s !! "provider_radio" = Some v) st _ Hnone).
  unfold setup_state. do 2 skip_step.
  eapply (triple_seq _ _ _ (fun st => st !! "provider_radio" = None
                                      /\ is_Some (st !! "provider"))).
  { eapply triple_step; [apply Sets_state_set | | |].
    - intros s Hr Hp. split; [done|]. by destruct (s !! "provider").
    - intros s v Hr _ _. split; [by rewrite lookup_insert_ne|].
      rewrite lookup_insert_eq. by eexists.
    - intros s e _ _ [=]. }
  eapply (triple_seq _ _ _ (fun st => exists v, st !! "provider" = Some v
                                                /\ st !! "provider_radio" = Some v)).
  { eapply triple_step; [apply Sets_provider_radio | | |].
    - intros s [Hr _] Hr'. done.
    - intros s v [_ [p Hp]] _ Hv. unfold subscript in Hv. rewrite Hp in Hv.
      injection Hv as <-. exists p.
      split; [by rewrite lookup_insert_ne | apply lookup_insert_eq].
    - intros s e [_ [p Hp]] _ Hv. unfold subscript in Hv. by rewrite Hp in Hv. }
  through_steps.
Qed.

Lemma provider_radio_mirrors_provider_witness :
  exists v,
    (@setup_state sample_lib sample_world (<["provider" := PStr "vertex"]> ∅)).1
      !! "provider" = Some v
    /\ (@setup_state sample_lib sample_world (<["provider" := PStr "vertex"]> ∅)).1
         !! "provider_radio" = Some v.
Proof.
  apply (@provider_radio_mirrors_provider sample_lib sample_world
           (<["provider" := PStr "vertex"]> ∅)).
  reflexivity.
Defined.

Lemma setup_state_messages `{Lib} w (st : state) :
  (setup_state w st).1 !! "messages" = Some (default (PList []) (st !! "messages")).
Proof.
  pose (x := st !! "messages").
  refine (triple_run_any (fun s => s !! "messages" = x) _
            (fun s => s !! "messages" = Some (default (PList []) x)) st _ eq_refl).
  unfold setup_state.
  eapply (triple_seq _ _ _ (fun s => s !! "messages" = Some (default (PList []) x))).
  { eapply triple_step; [apply Sets_state_set | | |].
    - intros s Hx Hs. rewrite Hx in *. by destruct x.
    - intros s v Hx Hs [= <-]. rewrite lookup_insert_eq. rewrite <- Hx, Hs. done.
    - intros s e _ _ [=]. }
  through_steps.
Qed.

(** X5.  With a provider that has no default model, on a state with neither
    provider nor model, [process_input] raises the [KeyError] of bootstrap:
    the agent loop is not run, the world is untouched and the user's text is
    not added to the messages. *)
Theorem process_input_unknown_provider `{Lib} (user_input : string) (w : World)
    (st : state) :
  st !! "provider" = None -> st !! "model" = None ->
  PROVIDER_TO_DEFAULT_MODEL_NAME !! resolved_provider w = None ->
  process_input user_input (st, w) = ((setup_state w st).1, w, Raise KeyError)
  /\ (setup_state w st).1 !! "messages" = Some (default (PList []) (st !! "messages")).
Proof.
  intros Hp Hm Ht. split; [|apply setup_state_messages].
  pose proof (setup_state_final_provider w st Hp) as Hprov.
  pose proof (setup_state_raise w st I) as Hr.
  pose proof (triple_run _ _ _ _ st (setup_state_model w) Hm) as Hok.
  unfold process_input, bind.
  destruct (setup_state w st) as [s [[]|e]]; cbn in *.
  - destruct (Hok eq_refl) as (p & name & Hp' & Ht' & _).
    rewrite Hprov in Hp'. injection Hp' as <-. congruence.
  - destruct Hr as [_ Hd].
    rewrite (default_model_known s _ Hprov), Ht in Hd. by injection Hd as <-.
Qed.

Lemma process_input_unknown_provider_witness :
  @process_input sample_lib "hello" (∅, unknown_provider_world)
  = ((@setup_state sample_lib unknown_provider_world ∅).1, unknown_provider_world,
     Raise KeyError)
  /\ (@setup_state sample_lib unknown_provider_world ∅).1 !! "messages"
     = Some (PList []).
Proof.
  destruct (@process_input_unknown_provider sample_lib "hello" unknown_provider_world ∅)
    as [Hraise Hmessages]; [reflexivity | reflexivity | reflexivity |].
  split; [exact Hraise | exact Hmessages].
Defined.

(** ** The wrapper of the agent loop *)

Lemma is_Some_subscript (st : state) key :
  is_Some (st !! key) -> exists v, subscript st key = Ok v /\ st !! key = Some v.
Proof. intros [v Hv]. exists v. unfold subscript. by rewrite Hv. Qed.

(** X7.  After a bootstrap that returned, [sampling_loop_wrapper] finds
    every argument of the agent loop in the state: unless the API key is
    falsy it runs the loop, stores what the loop left in the three
    containers, and ends the way the loop ended. *)
Theorem sampling_loop_wrapper_after_bootstrap `{Lib} (w0 w : World) (st0 : state) :
  is_ok (setup_state w0 st0).2 = true ->
  api_key_missing (setup_state w0 st0).1 = false ->
  exists prompt model provider messages tools responses key limit,
    (setup_state w0 st0).1 !! "custom_system_prompt" = Some prompt
    /\ (setup_state w0 st0).1 !! "model" = Some model
    /\ (setup_state w0 st0).1 !! "provider" = Some provider
    /\ (setup_state w0 st0).1 !! "messages" = Some messages
    /\ (setup_state w0 st0).1 !! "tools" = Some tools
    /\ (setup_state w0 st0).1 !! "responses" = Some responses
    /\ (setup_state w0 st0).1 !! "api_key" = Some key
    /\ (setup_state w0 st0).1 !! "only_n_most_recent_images" = Some limit
    /\ sampling_loop_wrapper ((setup_state w0 st0).1, w)
       = let '(w', ((messages', tools', responses'), outcome)) :=
           sampling_loop prompt model provider messages tools responses key limit w in
         (<["responses" := responses']>
            (<["tools" := tools']> (<["messages" := messages']> (setup_state w0 st0).1)),
          w', outcome).
Proof.
  intros Hok Hkey.
  destruct (is_Some_subscript _ _
              (triple_run _ _ _ _ st0 (setup_state_sets_custom_system_prompt w0) I Hok))
    as (prompt & Hs1 & Hl1).
  destruct (is_Some_subscript _ _
              (triple_run _ _ _ _ st0 (setup_state_sets_model w0) I Hok))
    as (model & Hs2 & Hl2).
  destruct (is_Some_subscript _ _
              (triple_run _ _ _ _ st0 (setup_state_sets_provider w0) I Hok))
    as (provider & Hs3 & Hl3).
  destruct (is_Some_subscript _ _
              (triple_run _ _ _ _ st0 (setup_state_sets_messages w0) I Hok))
    as (messages & Hs4 & Hl4).
  destruct (is_Some_subscript _ _
              (triple_run _ _ _ _ st0 (setup_state_sets_tools w0) I Hok))
    as (tools & Hs5 & Hl5).
  destruct (is_Some_subscript _ _
              (triple_run _ _ _ _ st0 (setup_state_sets_responses w0) I Hok))
    as (responses & Hs6 & Hl6).
  destruct (is_Some_subscript _ _
              (triple_run _ _ _ _ st0 (setup_state_sets_api_key w0) I Hok))
    as (key & Hs7 & Hl7).
  destruct (is_Some_subscript _ _
              (triple_run _ _ _ _ st0 (setup_state_sets_only_n w0) I Hok))
    as (limit & Hs8 & Hl8).
  exists prompt, model, provider, messages, tools, responses, key, limit.
  repeat (split; [assumption|]).
  unfold sampling_loop_wrapper. rewrite Hkey.
  rewrite Hs1, Hs2, Hs3, Hs4, Hs5, Hs6, Hs7, Hs8. cbn [rbind].
  by destruct (sampling_loop _ _ _ _ _ _ _ _ w) as [w' [[[m t] r] out]].
Qed.

Lemma sampling_loop_wrapper_after_bootstrap_witness :
  (@sampling_loop_wrapper sample_lib
     ((@setup_state sample_lib sample_world ∅).1, sample_world)).2 = Ok tt.
Proof.
  destruct (@sampling_loop_wrapper_after_bootstrap sample_lib sample_world sample_world ∅)
    as (prompt & model & provider & messages & tools & responses & key & limit
        & _ & _ & _ & _ & _ & _ & _ & _ & Hrun); [reflexivity | reflexivity |].
  rewrite Hrun. reflexivity.
Defined.

(** ** More on rendering one message *)

(** X8.  On a message that is not a tool result [_render_message] never
    raises and never looks at the state: a falsy message gives [None], a text
    block its text, a tool use its text, anything else the message itself. *)
Theorem render_message_plain `{Lib} (sender : Sender) (message : pyval) (st : state) :
  tool_result_like message = false ->
  _render_message sender message st
  = Ok (if negb (py_truthy message) then PNone
        else match message with
             | PTextBlock text | PBetaTextBlock text => PStr text
             | PToolUseBlock name input | PBetaToolUseBlock name input =>
                 PStr (tool_use_text name input)
             | _ => message
             end).
Proof.
  unfold tool_result_like, _render_message, tool_use_text.
  destruct message; cbn; try done.
  - by destruct b.
  - by destruct (negb (z =? 0)).
  - by destruct (negb (String.eqb s "")).
  - by destruct (negb (String.eqb s "")).
  - by destruct items.
  - by destruct entries.
  - intros ->. done.
Qed.

Lemma render_message_plain_witness :
  @_render_message sample_lib BOT (PStr "") ∅ = Ok PNone
  /\ @_render_message sample_lib BOT (PStr "working on it") ∅ = Ok (PStr "working on it")
  /\ @_render_message sample_lib BOT (PTextBlock "hi") ∅ = Ok (PStr "hi").
Proof.
  split; [|split].
  - apply (@render_message_plain sample_lib BOT (PStr "") ∅). reflexivity.
  - apply (@render_message_plain sample_lib BOT (PStr "working on it") ∅). reflexivity.
  - apply (@render_message_plain sample_lib BOT (PTextBlock "hi") ∅). reflexivity.
Defined.

(** X9.  On a truthy tool result [_render_message] reads
    [state["hide_images"]] before anything else: without that key it raises
    [KeyError], also for a result that holds only an output. *)
Theorem render_message_needs_flag `{Lib} (sender : Sender) (message : pyval)
    (st : state) :
  tool_result_like message = true -> py_truthy message = true ->
  st !! "hide_images" = None ->
  _render_message sender message st = Raise KeyError.
Proof.
  unfold tool_result_like, _render_message. intros -> -> Hnone.
  unfold subscript. by rewrite Hnone.
Qed.

Lemma render_message_needs_flag_witness :
  @_render_message sample_lib BOT (PToolResult (Some "42") None None) ∅ = Raise KeyError.
Proof.
  apply (@render_message_needs_flag sample_lib BOT (PToolResult (Some "42") None None) ∅);
    reflexivity.
Defined.

(** X10.  A [ToolResult] with neither output nor error and with an image is
    rendered by the flag: to nothing when [hide_images] is truthy, and
    otherwise to the bytes the payload decodes to, or to the error of the
    decoder. *)
Theorem render_message_image `{Lib} (sender : Sender) (st : state) (hide : pyval)
    (output error : option string) (payload : string) :
  st !! "hide_images" = Some hide ->
  py_truthy (of_opt_str output) = false -> py_truthy (of_opt_str error) = false ->
  payload <> "" ->
  _render_message sender (PToolResult output error (Some payload)) st
  = if py_truthy hide then Ok PNone
    else match b64decode payload with
         | Some data => Ok (PBytes data)
         | None => Raise BinasciiError
         end.
Proof.
  intros Hhide Hout Herr Hpay. apply String.eqb_neq in Hpay.
  unfold _render_message. cbn.
  rewrite (subscript_present _ _ _ Hhide). cbn. rewrite !andb_false_r. cbn.
  rewrite Hout, Herr. cbn. rewrite Hpay. cbn.
  by destruct (py_truthy hide).
Qed.

Lemma render_message_image_witness :
  @_render_message sample_lib BOT (PToolResult None (Some "") (Some "aGk="))
    (<["hide_images" := PBool false]> ∅) = Ok (PBytes "hi")
  /\ @_render_message sample_lib BOT (PToolResult None None (Some "not base64"))
       (<["hide_images" := PBool false]> ∅) = Raise BinasciiError.
Proof.
  split.
  - apply (@render_message_image sample_lib BOT (<["hide_images" := PBool false]> ∅)
             (PBool false) None (Some "") "aGk="); [reflexivity .. | discriminate].
  - apply (@render_message_image sample_lib BOT (<["hide_images" := PBool false]> ∅)
             (PBool false) None None "not base64"); [reflexivity .. | discriminate].
Defined.

(** ** More on the turns *)

(** X11.  A tool use is shown by the loop of [process_input] only when it is
    a [BetaToolUseBlock]; a [ToolUseBlock] yields no pair there, although
    [_render_message] gives both the same text. *)
Theorem tool_use_blocks `{Lib} (sender : Sender) (st : state) (w : World)
    (msg msg' : pyval) (name : string) (input : pyval) :
  first_block msg = Ok (PBetaToolUseBlock name input) ->
  first_block msg' = Ok (PToolUseBlock name input) ->
  render_turn msg w = (w, Ok (Some (PNone, PStr (tool_use_text name input))))
  /\ render_turn msg' w = (w, Ok None)
  /\ _render_message sender (PBetaToolUseBlock name input) st
     = Ok (PStr (tool_use_text name input))
  /\ _render_message sender (PToolUseBlock name input) st
     = Ok (PStr (tool_use_text name input)).
Proof.
  intros Hb Hb'. unfold render_turn, bind, lift. rewrite Hb, Hb'. by cbn.
Qed.

Lemma tool_use_blocks_witness :
  @render_turn sample_lib (turn BOT [PBetaToolUseBlock "computer" (PStr "screenshot")])
    sample_world
  = (sample_world,
     Ok (Some (PNone, PStr (@tool_use_text sample_lib "computer" (PStr "screenshot")))))
  /\ @render_turn sample_lib (turn BOT [PToolUseBlock "computer" (PStr "screenshot")])
       sample_world = (sample_world, Ok None).
Proof.
  destruct (@tool_use_blocks sample_lib BOT ∅ sample_world
              (turn BOT [PBetaToolUseBlock "computer" (PStr "screenshot")])
              (turn BOT [PToolUseBlock "computer" (PStr "screenshot")])
              "computer" (PStr "screenshot")) as (Hbeta & Hplain & _);
    [reflexivity | reflexivity |].
  split; [exact Hbeta | exact Hplain].
Defined.

(** X12.  Only the first block of a turn is rendered: replacing a turn of
    the store by one with the same first block, whatever its role and its
    other blocks, changes neither the transcript nor what is done to the
    world. *)
Theorem only_first_block_rendered `{Lib} (pre post : list pyval) (msg msg' : pyval)
    (res : list pair) (w : World) :
  first_block msg = first_block msg' ->
  render_loop (pre ++ msg :: post) res w = render_loop (pre ++ msg' :: post) res w.
Proof.
  intros Hsame.
  assert (Hturn : forall w', render_turn msg w' = render_turn msg' w').
  { intros w'. unfold render_turn. by rewrite Hsame. }
  rewrite !render_loop_app, !render_loop_cons. unfold turn_pair. by rewrite Hturn.
Qed.

Lemma only_first_block_rendered_witness :
  @render_loop sample_lib
    ([assistant_turn "a"] ++ turn USER [PTextBlock "b"; PTextBlock "c"] :: []) []
    sample_world
  = @render_loop sample_lib ([assistant_turn "a"] ++ turn BOT [PTextBlock "b"] :: []) []
      sample_world.
Proof.
  apply (@only_first_block_rendered sample_lib [assistant_turn "a"] []
           (turn USER [PTextBlock "b"; PTextBlock "c"]) (turn BOT [PTextBlock "b"])).
  reflexivity.
Defined.

(** The loop body on a first block that is neither a text nor a tool use of
    the model. *)
Lemma render_turn_other `{Lib} msg block w :
  first_block msg = Ok block ->
  isinstance_TextBlock block = false -> isinstance_BetaTextBlock block = false ->
  isinstance_BetaToolUseBlock block = false ->
  render_turn msg w = match image_test block with
                      | Ok true => render_image block w
                      | Ok false => (w, Ok None)
                      | Raise e => (w, Raise e)
                      end.
Proof.
  intros Hb H1 H2 H3. unfold render_turn, bind at 1, lift at 1.
  rewrite Hb, H1, H2, H3. unfold image_test, render_image.
  destruct (isinstance_Dict block); [|done].
  unfold bind at 1, lift at 1.
  by destruct (let? inner := getitem_str block "content" in _) as [[]|].
Qed.

Lemma render_turn_world `{Lib} msg w :
  opens_with_image msg = false -> (render_turn msg w).1 = w.
Proof.
  unfold opens_with_image.
  destruct (first_block msg) as [block|e] eqn:Hb.
  - destruct (isinstance_TextBlock block) eqn:H1.
    { intros _. unfold render_turn, bind, lift. rewrite Hb, H1.
      by destruct (py_getattr block "text"). }
    destruct (isinstance_BetaTextBlock block) eqn:H2.
    { intros _. unfold render_turn, bind, lift. rewrite Hb, H1, H2.
      by destruct (py_getattr block "text"). }
    destruct (isinstance_BetaToolUseBlock block) eqn:H3.
    { intros _. unfold render_turn, bind, lift. rewrite Hb, H1, H2, H3.
      destruct (py_getattr block "name"); [|done].
      by destruct (py_getattr block "input"). }
    intros Himg. cbn in Himg. rewrite (render_turn_other msg block w Hb H1 H2 H3).
    by destruct (image_test block) as [[]|].
  - intros _. by rewrite (render_turn_no_first_block msg e w Hb).
Qed.

(** X13.  A store without a turn that opens with an image is rendered
    without touching the world: no file is written and the clock is not
    read. *)
Theorem render_loop_world_untouched `{Lib} (msgs : list pyval) (res : list pair)
    (w : World) :
  Forall (fun msg => opens_with_image msg = false) msgs ->
  (render_loop msgs res w).1 = w.
Proof.
  intros Hall. revert res w.
  induction Hall as [|msg rest Hmsg _ IH]; intros res w; [done|].
  rewrite render_loop_cons, IH. unfold turn_pair.
  pose proof (render_turn_world msg w Hmsg) as Hw.
  by destruct (render_turn msg w) as [w' [o|e]].
Qed.

Lemma render_loop_world_untouched_witness :
  (@render_loop sample_lib [user_turn "2*21?"; tool_text_turn "42"; turn BOT []] []
     read_only_world).1 = read_only_world.
Proof.
  apply (@render_loop_world_untouched sample_lib). repeat constructor.
Defined.

Lemma opens_with_image_inv msg :
  opens_with_image msg = true ->
  exists block, first_block msg = Ok block
                /\ isinstance_TextBlock block = false
                /\ isinstance_BetaTextBlock block = false
                /\ isinstance_BetaToolUseBlock block = false
                /\ image_test block = Ok true.
Proof.
  unfold opens_with_image. destruct (first_block msg) as [block|]; [|done].
  intros Himg. exists block. split; [done|].
  destruct (isinstance_TextBlock block), (isinstance_BetaTextBlock block),
    (isinstance_BetaToolUseBlock block); try done.
  by destruct (image_test block) as [[]|].
Qed.

(** X14.  When the working directory cannot be written, a turn that opens
    with an image yields no pair: opening [D:\msg.txt] raises, the payload is
    not decoded and the clock is not read. *)
Theorem image_turn_read_only `{Lib} (msg : pyval) (w : World) :
  opens_with_image msg = true -> cwd_writable w = false ->
  render_turn msg w = (w, Raise OSError).
Proof.
  intros Himg Hro.
  destruct (opens_with_image_inv msg Himg) as (block & Hb & H1 & H2 & H3 & Ht).
  rewrite (render_turn_other msg block w Hb H1 H2 H3), Ht.
  unfold render_image, bind, write_file. by rewrite Hro.
Qed.

Lemma image_turn_read_only_witness :
  @render_turn sample_lib (tool_image_turn tiny_png) read_only_world
  = (read_only_world, Raise OSError).
Proof.
  apply (@image_turn_read_only sample_lib (tool_image_turn tiny_png) read_only_world);
    reflexivity.
Defined.

Lemma first_block_tool_image_turn data :
  first_block (tool_image_turn data) = Ok (tool_image_block data).
Proof. reflexivity. Qed.

(** X15.  A stored screenshot whose payload decodes to an image, in a
    working directory that can be written: the loop dumps the block to
    [D:\msg.txt], saves the image under the first reading of the clock and
    yields the pair of an image named by the second reading. *)
Theorem image_turn_rendered `{Lib} (s data : string) (w : World) :
  String.prefix "data:image" s = false ->
  b64decode s = Some data -> Image_open data = true -> cwd_writable w = true ->
  (render_turn (tool_image_turn s) w).2
  = Ok (Some (PNone, PImage (strftime_stamp (clock w (S (ticks w))) ++ ".png")))
  /\ cwd (render_turn (tool_image_turn s) w).1
     = <[strftime_stamp (clock w (ticks w)) ++ ".png" := Png data]>
         (<["D:\msg.txt" := Dump (py_str (tool_image_block s))]> (cwd w))
  /\ ticks (render_turn (tool_image_turn s) w).1 = S (S (ticks w)).
Proof.
  intros Hprefix Hdecode Himage Hwrite.
  rewrite (render_turn_other _ _ w (first_block_tool_image_turn s)); [|done..].
  cbn [image_test isinstance_Dict tool_image_block]. cbn -[write_file decode_base64_image].
  unfold render_image, bind, write_file. rewrite Hwrite. cbn -[decode_base64_image].
  unfold decode_base64_image, bind, ret.
  rewrite Hprefix, Hdecode, Himage. cbn. unfold write_file. cbn. rewrite Hwrite.
  by cbn.
Qed.

Lemma image_turn_rendered_witness :
  (@render_turn sample_lib (tool_image_turn tiny_png) sample_world).2
  = Ok (Some (PNone, PImage "2024-11-03_12-00-01.png"))
  /\ ticks (@render_turn sample_lib (tool_image_turn tiny_png) sample_world).1 = 2%nat.
Proof.
  destruct (@image_turn_rendered sample_lib tiny_png tiny_png_bytes sample_world)
    as (Hpair & _ & Hticks); [reflexivity .. |].
  split; [exact Hpair | exact Hticks].
Defined.

(** X16.  A stored screenshot whose payload does not decode yields no pair,
    but its dump is left in [D:\msg.txt]; no image is saved and the clock is
    not read. *)
Theorem image_turn_undecodable `{Lib} (s : string) (w : World) :
  String.prefix "data:image" s = false ->
  b64decode s = None -> cwd_writable w = true ->
  render_turn (tool_image_turn s) w
  = (set_cwd w (<["D:\msg.txt" := Dump (py_str (tool_image_block s))]> (cwd w)),
     Raise BinasciiError).
Proof.
  intros Hprefix Hdecode Hwrite.
  rewrite (render_turn_other _ _ w (first_block_tool_image_turn s)); [|done..].
  cbn [image_test isinstance_Dict tool_image_block]. cbn -[write_file decode_base64_image].
  unfold render_image, bind, write_file. rewrite Hwrite. cbn -[decode_base64_image].
  unfold decode_base64_image, bind, ret.
  by rewrite Hprefix, Hdecode.
Qed.

Lemma image_turn_undecodable_witness :
  (@render_turn sample_lib (tool_image_turn "not base64") sample_world).2
  = Raise BinasciiError
  /\ cwd (@render_turn sample_lib (tool_image_turn "not base64") sample_world).1
       !! "D:\msg.txt" = Some (Dump "<object>").
Proof.
  rewrite (@image_turn_undecodable sample_lib "not base64" sample_world);
    [| reflexivity ..].
  split; reflexivity.
Defined.

(** ** More on persisting an image *)

Lemma str_app_cons a (s t : string) : String a s ++ t = String a (s ++ t).
Proof. reflexivity. Qed.

Lemma str_app_nil_r (s : string) : s ++ "" = s.
Proof. induction s as [|a s IH]; [done|]. by rewrite str_app_cons, IH. Qed.

Lemma str_app_assoc (s1 s2 s3 : string) : (s1 ++ s2) ++ s3 = s1 ++ (s2 ++ s3).
Proof. induction s1 as [|a s1 IH]; [done|]. by rewrite !str_app_cons, IH. Qed.

Lemma rev_app_append (x y : string) : String.rev_app x y = String.rev_app x "" ++ y.
Proof.
  revert y. induction x as [|a x IH]; intros y; [done|].
  cbn [String.rev_app]. rewrite (IH (String a y)), (IH (String a "")), str_app_assoc.
  done.
Qed.

Lemma rev_cons a (cur : string) : String.rev (String a cur) = String.rev cur ++ String a "".
Proof. unfold String.rev. cbn [String.rev_app]. apply rev_app_append. Qed.

Lemma split_go_piece sep cur h rest :
  occurs sep h = false ->
  split_go sep cur (h ++ String sep rest)
  = (String.rev cur ++ h) :: split_go sep "" rest.
Proof.
  revert cur. induction h as [|a h IH]; intros cur Hno.
  - change ("" ++ String sep rest) with (String sep rest). cbn [split_go].
    by rewrite Ascii.eqb_refl, str_app_nil_r.
  - cbn [occurs] in Hno. apply orb_false_iff in Hno as [Ha Hh].
    rewrite str_app_cons. cbn [split_go]. rewrite Ha, (IH _ Hh), rev_cons, str_app_assoc.
    done.
Qed.

Lemma split_go_last sep cur p :
  occurs sep p = false -> split_go sep cur p = [String.rev cur ++ p].
Proof.
  revert cur. induction p as [|a p IH]; intros cur Hno.
  - cbn [split_go]. by rewrite str_app_nil_r.
  - cbn [occurs] in Hno. apply orb_false_iff in Hno as [Ha Hp].
    cbn [split_go]. rewrite Ha, (IH _ Hp), rev_cons, str_app_assoc. done.
Qed.

Lemma prefix_app p h x :
  String.prefix p h = true -> String.prefix p (h ++ x) = true.
Proof.
  revert p. induction h as [|b h IH]; intros p; destruct p as [|a p];
    try done; try (by destruct x).
  rewrite str_app_cons. cbn [String.prefix].
  destruct (ascii_dec a b); [apply IH | done].
Qed.

(** X17.  A data URL is cut at its first comma: a payload behind a header
    that starts with "data:image" is treated exactly like the bare
    payload. *)
Theorem decode_base64_image_data_url `{Lib} (header payload : string) (w : World) :
  String.prefix "data:image" header = true ->
  occurs "," header = false -> occurs "," payload = false ->
  String.prefix "data:image" payload = false ->
  decode_base64_image (PStr (header ++ "," ++ payload)) w
  = decode_base64_image (PStr payload) w.
Proof.
  intros Hheader Hh Hp Hbare. unfold decode_base64_image.
  rewrite (prefix_app _ _ _ Hheader), Hbare. unfold split.
  change ("," ++ payload) with (String "," payload).
  rewrite (split_go_piece _ _ _ _ Hh), (split_go_last _ _ _ Hp). done.
Qed.

Lemma decode_base64_image_data_url_witness :
  @decode_base64_image sample_lib (PStr ("data:image/png;base64" ++ "," ++ tiny_png))
    still_world
  = @decode_base64_image sample_lib (PStr tiny_png) still_world.
Proof.
  apply (@decode_base64_image_data_url sample_lib "data:image/png;base64" tiny_png
           still_world); reflexivity.
Defined.

(** X18.  When [decode_base64_image] raises, no file has been written; and
    unless it was the saving that raised, the world is as it was, the clock
    unread. *)
Theorem decode_base64_image_failure `{Lib} (base64_str : pyval) (w : World) (e : exn) :
  (decode_base64_image base64_str w).2 = Raise e ->
  cwd (decode_base64_image base64_str w).1 = cwd w
  /\ (e <> OSError -> (decode_base64_image base64_str w).1 = w).
Proof.
  unfold decode_base64_image, bind, ret, raise.
  destruct base64_str; try (intros [= <-]; by split).
  destruct (String.prefix "data:image" s).
  - destruct (split "," s) as [|first [|second rest]]; try (intros [= <-]; by split).
    destruct (b64decode second) as [data|]; [|intros [= <-]; by split].
    destruct (Image_open data); [|intros [= <-]; by split].
    cbn. unfold write_file. cbn. destruct (cwd_writable w); cbn; [done|].
    intros [= <-]. by split.
  - destruct (b64decode s) as [data|]; [|intros [= <-]; by split].
    destruct (Image_open data); [|intros [= <-]; by split].
    cbn. unfold write_file. cbn. destruct (cwd_writable w); cbn; [done|].
    intros [= <-]. by split.
Qed.

Lemma decode_base64_image_failure_witness :
  cwd (@decode_base64_image sample_lib (PStr "data:image/png;base64") sample_world).1
  = cwd sample_world
  /\ (@decode_base64_image sample_lib (PStr "data:image/png;base64") sample_world).1
     = sample_world.
Proof.
  destruct (@decode_base64_image_failure sample_lib (PStr "data:image/png;base64")
              sample_world IndexError) as [Hfiles Hworld]; [reflexivity|].
  split; [exact Hfiles | apply Hworld; discriminate].
Defined.

(** The world a successful [decode_base64_image] leaves. *)
Lemma decode_base64_image_world `{Lib} (s data : string) (w : World) :
  String.prefix "data:image" s = false ->
  b64decode s = Some data -> Image_open data = true -> cwd_writable w = true ->
  (decode_base64_image (PStr s) w).1
  = mk_World (environ w) (config_dir w)
      (<[strftime_stamp (clock w (ticks w)) ++ ".png" := Png data]> (cwd w))
      (cwd_writable w) (clock w) (S (S (ticks w))).
Proof.
  intros Hprefix Hdecode Himage Hwrite. unfold decode_base64_image, bind, ret.
  rewrite Hprefix, Hdecode, Himage. cbn. unfold write_file. cbn. rewrite Hwrite.
  by cbn.
Qed.

(** X19.  Two images decoded one after the other within the same second end
    up in one file: the second overwrites the first. *)
Theorem decode_base64_image_overwrites `{Lib} (s1 s2 data1 data2 : string) (w : World) :
  String.prefix "data:image" s1 = false -> String.prefix "data:image" s2 = false ->
  b64decode s1 = Some data1 -> b64decode s2 = Some data2 ->
  Image_open data1 = true -> Image_open data2 = true -> cwd_writable w = true ->
  strftime_stamp (clock w (ticks w)) = strftime_stamp (clock w (S (S (ticks w)))) ->
  cwd (decode_base64_image (PStr s2) (decode_base64_image (PStr s1) w).1).1
  = <[strftime_stamp (clock w (ticks w)) ++ ".png" := Png data2]> (cwd w).
Proof.
  intros Hp1 Hp2 Hd1 Hd2 Hi1 Hi2 Hwrite Hsame.
  rewrite (decode_base64_image_world s1 data1 w Hp1 Hd1 Hi1 Hwrite).
  rewrite (decode_base64_image_world s2 data2 _ Hp2 Hd2 Hi2); [|exact Hwrite].
  cbn. rewrite <- Hsame. apply insert_insert_eq.
Qed.

Lemma decode_base64_image_overwrites_witness :
  cwd (@decode_base64_image sample_lib (PStr tiny_png)
         (@decode_base64_image sample_lib (PStr "iVBORw0KGgo=") still_world).1).1
  = <["2024-11-03_12-00-00.png" := Png tiny_png_bytes]> ∅.
Proof.
  apply (@decode_base64_image_overwrites sample_lib "iVBORw0KGgo=" tiny_png
           png_signature tiny_png_bytes still_world); reflexivity.
Defined.

Lemma decode_base64_image_same_second_witness :
  exists name,
    (@decode_base64_image sample_lib (PStr tiny_png) still_world).2 = Ok name
    /\ cwd (@decode_base64_image sample_lib (PStr tiny_png) still_world).1 !! name
       = Some (Png tiny_png_bytes).
Proof.
  apply (@decode_base64_image_same_second sample_lib tiny_png tiny_png_bytes still_world);
    reflexivity.
Defined.

(** ** The storage *)

Lemma load_from_storage_text w filename text :
  config_dir w !! filename = Some (FileText text) ->
  load_from_storage w filename
  = if String.eqb (strip text) "" then None else Some (strip text).
Proof. intros Hf. unfold load_from_storage. by rewrite Hf. Qed.

Lemma load_after_save filename data w modes :
  load_from_storage (save_to_storage NoFault filename data (w, modes)).1 filename
  = if String.eqb (strip (universal_newlines data)) "" then None
    else Some (strip (universal_newlines data)).
Proof. apply load_from_storage_text. cbn. apply lookup_insert_eq. Qed.

(** X20.  What [save_to_storage] has written, [load_from_storage] reads
    back with every carriage return, alone or before a line feed, turned
    into a line feed, and without the surrounding white space; it reads
    [None] when nothing else is left.  The saved file is readable and
    writable by its owner only. *)
Theorem save_then_load (filename data : string) (w : World) (modes : gmap string N) :
  load_from_storage (save_to_storage NoFault filename data (w, modes)).1 filename
  = (if String.eqb (strip (universal_newlines data)) "" then None
     else Some (strip (universal_newlines data)))
  /\ (save_to_storage NoFault filename data (w, modes)).2 !! filename = Some 384%N.
Proof.
  split; [apply load_after_save|]. cbn. apply lookup_insert_eq.
Qed.

Lemma save_then_load_witness :
  load_from_storage (save_to_storage NoFault "api_key" "  sk-ant-01 " (sample_world, ∅)).1
    "api_key" = Some "sk-ant-01"
  /\ load_from_storage (save_to_storage NoFault "system_prompt" "   " (sample_world, ∅)).1
       "system_prompt" = None
  /\ load_from_storage
       (save_to_storage NoFault "system_prompt"
          ("line1" ++ String CR (String LF "line2") ++ String CR "line3" ++ String CR "")
          (sample_world, ∅)).1 "system_prompt"
     = Some ("line1" ++ String LF "line2" ++ String LF "line3").
Proof.
  split; [|split].
  - apply (proj1 (save_then_load "api_key" "  sk-ant-01 " sample_world ∅)).
  - apply (proj1 (save_then_load "system_prompt" "   " sample_world ∅)).
  - apply (proj1 (save_then_load "system_prompt"
                    ("line1" ++ String CR (String LF "line2") ++ String CR "line3"
                     ++ String CR "") sample_world ∅)).
Defined.



(** X22.  A key saved to the storage is the key of the next bootstrap of a
    state without one, whatever the environment holds, in the form in which
    it is read back: carriage returns as line feeds, the surrounding white
    space gone.  A saved prompt likewise becomes the system prompt suffix
    when bootstrap returns. *)
Theorem saved_values_reach_bootstrap `{Lib} (data : string) (w : World)
    (modes : gmap string N) (st : state) :
  strip (universal_newlines data) <> "" ->
  (st !! "api_key" = None ->
   (setup_state (save_to_storage NoFault "api_key" data (w, modes)).1 st).1 !! "api_key"
   = Some (PStr (strip (universal_newlines data))))
  /\ (st !! "custom_system_prompt" = None ->
      is_ok (setup_state (save_to_storage NoFault "system_prompt" data (w, modes)).1 st).2
      = true ->
      (setup_state (save_to_storage NoFault "system_prompt" data (w, modes)).1 st).1
        !! "custom_system_prompt" = Some (PStr (strip (universal_newlines data)))).
Proof.
  intros Hdata. apply String.eqb_neq in Hdata. split.
  - intros Hnone.
    rewrite (triple_run_any _ _ _ st (setup_state_api_key _) Hnone).
    unfold resolved_api_key.
    rewrite load_after_save, Hdata. cbn. by rewrite !Hdata.
  - intros Hnone Hok.
    rewrite (triple_run _ _ _ _ st (setup_state_custom_system_prompt _) Hnone Hok).
    rewrite load_after_save, Hdata. cbn. by rewrite Hdata.
Qed.

Lemma saved_values_reach_bootstrap_witness :
  (@setup_state sample_lib
     (save_to_storage NoFault "api_key" " sk-ant-02 " (configured_world, ∅)).1 ∅).1
    !! "api_key" = Some (PStr "sk-ant-02")
  /\ (@setup_state sample_lib
        (save_to_storage NoFault "system_prompt" ("line1" ++ String CR "line2")
           (configured_world, ∅)).1 ∅).1
       !! "custom_system_prompt" = Some (PStr ("line1" ++ String LF "line2")).
Proof.
  split.
  - destruct (@saved_values_reach_bootstrap sample_lib " sk-ant-02 " configured_world ∅ ∅)
      as [Hkey _]; [discriminate|].
    apply Hkey. reflexivity.
  - destruct (@saved_values_reach_bootstrap sample_lib ("line1" ++ String CR "line2")
                configured_world ∅ ∅) as [_ Hprompt]; [discriminate|].
    apply Hprompt; reflexivity.
Defined.

(** ** The archives *)

Lemma assoc_setitem_eq entries key (v : pyval) :
  assoc key (dict_setitem entries key v) = Some v.
Proof.
  induction entries as [|[k x] rest IH]; cbn.
  - by rewrite String.eqb_refl.
  - destruct (String.eqb key k) eqn:Hk; cbn; by rewrite Hk.
Qed.

Lemma assoc_setitem_ne entries key other (v : pyval) :
  other <> key -> assoc other (dict_setitem entries key v) = assoc other entries.
Proof.
  intros Hne. apply String.eqb_neq in Hne.
  induction entries as [|[k x] rest IH]; cbn.
  - by rewrite Hne.
  - destruct (String.eqb key k) eqn:Hk; cbn.
    + apply String.eqb_eq in Hk as <-. by rewrite Hne.
    + by rewrite IH.
Qed.

Lemma length_setitem entries key (v : pyval) :
  length (dict_setitem entries key v)
  = match assoc key entries with
    | Some _ => length entries
    | None => S (length entries)
    end.
Proof.
  induction entries as [|[k x] rest IH]; cbn; [done|].
  destruct (String.eqb key k); cbn; [done|].
  rewrite IH. by destruct (assoc key rest).
Qed.

Lemma setitem_setitem entries key (v v' : pyval) :
  dict_setitem (dict_setitem entries key v) key v' = dict_setitem entries key v'.
Proof.
  induction entries as [|[k x] rest IH]; cbn.
  - by rewrite String.eqb_refl.
  - destruct (String.eqb key k) eqn:Hk; cbn; rewrite Hk; [done | by rewrite IH].
Qed.

(** X23.  [_tool_output_callback] records the output under the tool id:
    the id then reads as this output, every other id reads as before, the
    archive grows by one entry for a new id and by none for a known one, and
    of two outputs for one id the last one wins. *)
Theorem tool_output_recorded (entries : list (string * pyval)) (tool_id : string)
    (tool_output previous : pyval) :
  exists entries',
    _tool_output_callback tool_output tool_id (PDict entries) = Ok (PDict entries')
    /\ getitem_str (PDict entries') tool_id = Ok tool_output
    /\ (forall other, other <> tool_id ->
                      getitem_str (PDict entries') other = getitem_str (PDict entries) other)
    /\ length entries'
       = match assoc tool_id entries with
         | Some _ => length entries
         | None => S (length entries)
         end
    /\ (let? archive := _tool_output_callback previous tool_id (PDict entries) in
        _tool_output_callback tool_output tool_id archive) = Ok (PDict entries').
Proof.
  exists (dict_setitem entries tool_id tool_output). cbn.
  split; [done|]. split; [by rewrite assoc_setitem_eq|]. split; [|split].
  - intros other Hne. by rewrite assoc_setitem_ne.
  - apply length_setitem.
  - by rewrite setitem_setitem.
Qed.

Lemma stamp_of_isoformat (t1 t2 : datetime) :
  isoformat t1 = isoformat t2 -> strftime_stamp t1 = strftime_stamp t2.
Proof.
  unfold isoformat, strftime_stamp, four_digits, two_digits.
  cbv [String.append]. intros Hiso.
  injection Hiso. intros. congruence.
Qed.

(** X24.  [_api_response_callback] reads the clock once and records the
    response under the ISO form of the reading.  Two responses read at the
    same instant share the id, and the second replaces the first; two
    responses read in different seconds are both kept. *)
Theorem api_responses_recorded (entries : list (string * pyval)) (first second : pyval)
    (w : World) :
  exists w1 entries1 w2 entries2,
    _api_response_callback first (PDict entries) w = (w1, Ok (PDict entries1))
    /\ _api_response_callback second (PDict entries1) w1 = (w2, Ok (PDict entries2))
    /\ ticks w2 = S (S (ticks w))
    /\ assoc (isoformat (clock w (S (ticks w)))) entries2 = Some second
    /\ (clock w (ticks w) = clock w (S (ticks w)) ->
        length entries2 = length entries1)
    /\ (strftime_stamp (clock w (ticks w)) <> strftime_stamp (clock w (S (ticks w))) ->
        assoc (isoformat (clock w (ticks w))) entries2 = Some first).
Proof.
  exists (now w).1, (dict_setitem entries (isoformat (clock w (ticks w))) first),
    (now (now w).1).1,
    (dict_setitem (dict_setitem entries (isoformat (clock w (ticks w))) first)
       (isoformat (clock w (S (ticks w)))) second).
  split; [reflexivity|]. split; [reflexivity|].
  cbn. split; [done|]. split; [apply assoc_setitem_eq|]. split.
  - intros <-. rewrite length_setitem. by rewrite assoc_setitem_eq.
  - intros Hdiff. rewrite assoc_setitem_ne; [apply assoc_setitem_eq|].
    intros Hiso. apply Hdiff. by apply stamp_of_isoformat.
Qed.

Lemma api_responses_recorded_witness :
  exists entries2,
    (let* archive := _api_response_callback (PStr "first") (PDict []) in
     _api_response_callback (PStr "second") archive) sample_world
    = ({| environ := ∅; config_dir := ∅; cwd := ∅; cwd_writable := true;
          clock := sample_clock; ticks := 2 |}, Ok (PDict entries2))
    /\ assoc "2024-11-03T12:00:00" entries2 = Some (PStr "first")
    /\ assoc "2024-11-03T12:00:01" entries2 = Some (PStr "second").
Proof.
  destruct (api_responses_recorded [] (PStr "first") (PStr "second") sample_world)
    as (w1 & entries1 & w2 & entries2 & H1 & H2 & _ & Hsecond & _ & Hfirst).
  exists entries2. unfold bind. rewrite H1, H2.
  injection H1 as <- <-. injection H2 as <- <-.
  split; [reflexivity|]. split; [apply Hfirst; discriminate | exact Hsecond].
Defined.

Lemma tool_output_recorded_witness :
  let archive := PDict [("toolu_01", PToolResult (Some "ls") None None)] in
  exists entries',
    _tool_output_callback (PToolResult None (Some "boom") None) "toolu_02" archive
    = Ok (PDict entries')
    /\ getitem_str (PDict entries') "toolu_01" = getitem_str archive "toolu_01"
    /\ length entries' = 2%nat.
Proof.
  intros archive.
  destruct (tool_output_recorded [("toolu_01", PToolResult (Some "ls") None None)]
              "toolu_02" (PToolResult None (Some "boom") None) PNone)
    as (entries' & Hrun & _ & Hother & Hlen & _).
  exists entries'. split; [exact Hrun|]. split; [|exact Hlen].
  apply Hother. discriminate.
Defined.

(** ** Checking the credentials *)

Lemma eq_str_refl s : eq_str (PStr s) s = true.
Proof. apply String.eqb_refl. Qed.

Lemma eq_str_ne s s' : s <> s' -> eq_str (PStr s) s' = false.
Proof. intros Hne. by apply String.eqb_neq. Qed.

(** X25.  For the Anthropic provider [validate_auth] looks at the key and
    at nothing else: a falsy key is refused with the request to enter one,
    every other key is accepted, whatever the cloud SDKs would say. *)
Theorem validate_auth_anthropic `{Lib} `{Cloud} (w : World) (api_key : pyval) :
  APIProvider_ANTHROPIC <> APIProvider_BEDROCK ->
  APIProvider_ANTHROPIC <> APIProvider_VERTEX ->
  validate_auth w (PStr APIProvider_ANTHROPIC) api_key
  = Ok (if py_truthy api_key then None
        else Some "Enter your Anthropic API key to continue.").
Proof.
  intros Hb Hv. unfold validate_auth.
  rewrite eq_str_refl, (eq_str_ne _ _ Hb), (eq_str_ne _ _ Hv).
  by destruct (py_truthy api_key).
Qed.

Lemma validate_auth_anthropic_witness :
  @validate_auth sample_lib bare_cloud sample_world (PStr "anthropic") (PStr "")
  = Ok (Some "Enter your Anthropic API key to continue.")
  /\ @validate_auth sample_lib bare_cloud sample_world (PStr "anthropic") PNone
     = Ok (Some "Enter your Anthropic API key to continue.")
  /\ @validate_auth sample_lib bare_cloud sample_world (PStr "anthropic") (PStr "sk-1")
     = Ok None.
Proof.
  split; [|split].
  - apply (@validate_auth_anthropic sample_lib bare_cloud sample_world (PStr ""));
      discriminate.
  - apply (@validate_auth_anthropic sample_lib bare_cloud sample_world PNone);
      discriminate.
  - apply (@validate_auth_anthropic sample_lib bare_cloud sample_world (PStr "sk-1"));
      discriminate.
Defined.

(** X26.  A provider that is none of the three members of [APIProvider]
    passes [validate_auth] with any key, also with none. *)
Theorem validate_auth_unknown_provider `{Lib} `{Cloud} (w : World)
    (provider api_key : pyval) :
  eq_str provider APIProvider_ANTHROPIC = false ->
  eq_str provider APIProvider_BEDROCK = false ->
  eq_str provider APIProvider_VERTEX = false ->
  validate_auth w provider api_key = Ok None.
Proof. intros Ha Hb Hv. unfold validate_auth. by rewrite Ha, Hb, Hv. Qed.

Lemma validate_auth_unknown_provider_witness :
  @validate_auth sample_lib bare_cloud sample_world (PStr "openai") PNone = Ok None.
Proof.
  apply (@validate_auth_unknown_provider sample_lib bare_cloud sample_world
           (PStr "openai") PNone); reflexivity.
Defined.

(** X27.  After bootstrap has filled the API key of a state that had none,
    [validate_auth] for the Anthropic provider accepts that key: the
    placeholder of a missing key passes the check. *)
Theorem bootstrap_key_passes_validation `{Lib} `{Cloud} (w0 w : World) (st : state)
    (key : pyval) :
  APIProvider_ANTHROPIC <> APIProvider_BEDROCK ->
  APIProvider_ANTHROPIC <> APIProvider_VERTEX ->
  st !! "api_key" = None ->
  (setup_state w0 st).1 !! "api_key" = Some key ->
  validate_auth w (PStr APIProvider_ANTHROPIC) key = Ok None.
Proof.
  intros Hb Hv Hnone Hkey.
  rewrite (triple_run_any _ _ _ st (setup_state_api_key w0) Hnone) in Hkey.
  injection Hkey as <-.
  unfold validate_auth.
  rewrite eq_str_refl, (eq_str_ne _ _ Hb), (eq_str_ne _ _ Hv).
  assert (Htruthy : py_truthy (PStr (resolved_api_key w0)) = true).
  { cbn. unfold resolved_api_key.
    destruct (String.eqb (str_or _ _) "") eqn:Hblank; [done | by rewrite Hblank]. }
  by rewrite Htruthy.
Qed.

Lemma bootstrap_key_passes_validation_witness :
  @validate_auth sample_lib bare_cloud sample_world (PStr "anthropic")
    (PStr "YOUR_API_KEY_HERE") = Ok None.
Proof.
  apply (@bootstrap_key_passes_validation sample_lib bare_cloud sample_world sample_world
           ∅ (PStr "YOUR_API_KEY_HERE")); try discriminate; reflexivity.
Defined.

(** X28.  For the Vertex provider the region is asked for before the
    credentials: without a non-empty CLOUD_ML_REGION the request to set it is
    returned whatever the credentials are; with one, the answer is that of
    the credentials. *)
Theorem validate_auth_vertex `{Lib} `{Cloud} (w : World) (api_key : pyval) :
  APIProvider_VERTEX <> APIProvider_ANTHROPIC ->
  APIProvider_VERTEX <> APIProvider_BEDROCK ->
  google_auth_import = Ok tt ->
  validate_auth w (PStr APIProvider_VERTEX) api_key
  = if String.eqb (default "" (environ w !! "CLOUD_ML_REGION")) ""
    then Ok (Some "Set the CLOUD_ML_REGION environment variable to use the Vertex API.")
    else match google_auth_default with
         | Ok true => Ok None
         | Ok false => Ok (Some "Your google cloud credentials are not set up correctly.")
         | Raise e => Raise e
         end.
Proof.
  intros Ha Hb Himport. unfold validate_auth.
  rewrite eq_str_refl, (eq_str_ne _ _ Ha), (eq_str_ne _ _ Hb), Himport. cbn.
  destruct (String.eqb _ ""); [done|].
  by destruct google_auth_default as [[]|].
Qed.

Lemma validate_auth_vertex_witness :
  @validate_auth sample_lib sample_cloud sample_world (PStr "vertex") PNone
  = Ok (Some "Set the CLOUD_ML_REGION environment variable to use the Vertex API.").
Proof.
  apply (@validate_auth_vertex sample_lib sample_cloud sample_world PNone);
    try discriminate; reflexivity.
Defined.

(** ** One round of [process_input] *)

Lemma setup_then_append `{Lib} user_input w (st : state) l :
  is_ok (setup_state w st).2 = true ->
  (setup_state w st).1 !! "messages" = Some (PList l) ->
  (setup_state w ;; append_user_turn user_input) st
  = (<["messages" := PList (l ++ [user_turn user_input])]> (setup_state w st).1, Ok tt).
Proof.
  intros Hok Hm. unfold bind at 1.
  destruct (setup_state w st) as [s [[]|e]]; [|discriminate]. cbn in Hm.
  unfold append_user_turn, messages_append, bind, state_get.
  by rewrite (subscript_present _ _ _ Hm).
Qed.

(** X29.  A call of [process_input] that fails on a falsy API key has
    already stored the user's text: the state keeps the new user turn
    although the call raises [ValueError] and the agent loop never ran. *)
Theorem process_input_missing_key `{Lib} (user_input : string) (w : World)
    (st : state) (key : pyval) (l : list pyval) :
  st !! "api_key" = Some key -> py_truthy key = false ->
  is_ok (setup_state w st).2 = true ->
  (setup_state w st).1 !! "messages" = Some (PList l) ->
  process_input user_input (st, w)
  = (<["messages" := PList (l ++ [user_turn user_input])]> (setup_state w st).1, w,
     Raise ValueError).
Proof.
  intros Hkey Hfalsy Hok Hm. unfold process_input.
  rewrite (setup_then_append user_input w st l Hok Hm).
  unfold sampling_loop_wrapper, api_key_missing.
  rewrite lookup_insert_ne by done.
  rewrite (setup_state_keeps w st "api_key" key Hkey). cbn. by rewrite Hfalsy.
Qed.

Lemma process_input_missing_key_witness :
  let st : state := <["api_key" := PStr ""]> ∅ in
  @process_input sample_lib "hello" (st, sample_world)
  = (<["messages" := PList [user_turn "hello"]]> (@setup_state sample_lib sample_world st).1,
     sample_world, Raise ValueError).
Proof.
  intros st.
  apply (@process_input_missing_key sample_lib "hello" sample_world st (PStr "") []);
    reflexivity.
Defined.

(** X30.  When bootstrap returns and the API key is truthy, [process_input]
    hands the agent loop the stored messages followed by the new user turn,
    together with the configuration of the state.  If the loop raises, so
    does [process_input], without a transcript; if it returns, the
    transcript is the projection of what the loop left in the state. *)
Theorem process_input_round `{Lib} (user_input : string) (w : World) (st : state)
    (l : list pyval) :
  is_ok (setup_state w st).2 = true ->
  (setup_state w st).1 !! "messages" = Some (PList l) ->
  api_key_missing (setup_state w st).1 = false ->
  exists prompt model provider tools responses key limit,
    (setup_state w st).1 !! "custom_system_prompt" = Some prompt
    /\ (setup_state w st).1 !! "model" = Some model
    /\ (setup_state w st).1 !! "provider" = Some provider
    /\ (setup_state w st).1 !! "tools" = Some tools
    /\ (setup_state w st).1 !! "responses" = Some responses
    /\ (setup_state w st).1 !! "api_key" = Some key
    /\ (setup_state w st).1 !! "only_n_most_recent_images" = Some limit
    /\ process_input user_input (st, w)
       = let '(w', ((messages', tools', responses'), outcome)) :=
           sampling_loop prompt model provider (PList (l ++ [user_turn user_input]))
             tools responses key limit w in
         let st' :=
           <["responses" := responses']>
             (<["tools" := tools']>
                (<["messages" := messages']>
                   (<["messages" := PList (l ++ [user_turn user_input])]>
                      (setup_state w st).1))) in
         match outcome with
         | Ok _ => (st', (render_transcript st' w').1, (render_transcript st' w').2)
         | Raise e => (st', w', Raise e)
         end.
Proof.
  intros Hok Hm Hkey.
  destruct (is_Some_subscript _ _
              (triple_run _ _ _ _ st (setup_state_sets_custom_system_prompt w) I Hok))
    as (prompt & Hs1 & Hl1).
  destruct (is_Some_subscript _ _
              (triple_run _ _ _ _ st (setup_state_sets_model w) I Hok))
    as (model & Hs2 & Hl2).
  destruct (is_Some_subscript _ _
              (triple_run _ _ _ _ st (setup_state_sets_provider w) I Hok))
    as (provider & Hs3 & Hl3).
  destruct (is_Some_subscript _ _
              (triple_run _ _ _ _ st (setup_state_sets_tools w) I Hok))
    as (tools & Hs5 & Hl5).
  destruct (is_Some_subscript _ _
              (triple_run _ _ _ _ st (setup_state_sets_responses w) I Hok))
    as (responses & Hs6 & Hl6).
  destruct (is_Some_subscript _ _
              (triple_run _ _ _ _ st (setup_state_sets_api_key w) I Hok))
    as (key & Hs7 & Hl7).
  destruct (is_Some_subscript _ _
              (triple_run _ _ _ _ st (setup_state_sets_only_n w) I Hok))
    as (limit & Hs8 & Hl8).
  exists prompt, model, provider, tools, responses, key, limit.
  repeat (split; [assumption|]).
  unfold process_input. rewrite (setup_then_append user_input w st l Hok Hm).
  unfold sampling_loop_wrapper, api_key_missing.
  rewrite lookup_insert_ne by done.
  unfold api_key_missing in Hkey. rewrite Hkey.
  unfold subscript. rewrite lookup_insert_eq. rewrite !lookup_insert_ne by done.
  rewrite Hl1, Hl2, Hl3, Hl5, Hl6, Hl7, Hl8. cbn [rbind].
  destruct (sampling_loop _ _ _ _ _ _ _ _ w) as [w' [[[m t] r] [[]|e]]]; [|done].
  by destruct (render_transcript _ w').
Qed.

Lemma process_input_round_witness :
  (@process_input sample_lib "hello" (<["messages" := PList [assistant_turn "hi"]]> ∅,
                                      sample_world)).2
  = Ok [(PNone, PStr "hi"); (PStr "hello", PNone)].
Proof.
  destruct (@process_input_round sample_lib "hello" sample_world
              (<["messages" := PList [assistant_turn "hi"]]> ∅) [assistant_turn "hi"])
    as (prompt & model & provider & tools & responses & key & limit
        & _ & _ & _ & _ & _ & _ & _ & Hrun); [reflexivity .. |].
  rewrite Hrun. reflexivity.
Defined.

(** ** The transcript in store order *)

(** A turn that does not reach the image branch gives the pair of its first
    block when that is a text or a tool use of the model, and nothing
    otherwise; it leaves the world as it is. *)
Lemma turn_pair_plain `{Lib} msg w :
  opens_with_image msg = false -> turn_pair msg w = (w, plain_pair msg).
Proof.
  unfold opens_with_image, plain_pair, turn_pair.
  destruct (first_block msg) as [block|e] eqn:Hb.
  - destruct (isinstance_TextBlock block) eqn:H1.
    { destruct block; try discriminate. intros _.
      unfold render_turn, bind, lift. by rewrite Hb. }
    destruct (isinstance_BetaTextBlock block) eqn:H2.
    { destruct block; try discriminate. intros _.
      unfold render_turn, bind, lift. by rewrite Hb. }
    destruct (isinstance_BetaToolUseBlock block) eqn:H3.
    { destruct block; try discriminate. intros _.
      unfold render_turn, bind, lift. by rewrite Hb. }
    intros Himg. cbn in Himg. rewrite (render_turn_other msg block w Hb H1 H2 H3).
    destruct (image_test block) as [[]|]; try discriminate;
      by destruct block.
  - intros _. by rewrite (render_turn_no_first_block msg e w Hb).
Qed.

Lemma render_loop_no_image `{Lib} msgs res w :
  Forall (fun msg => opens_with_image msg = false) msgs ->
  render_loop msgs res w = (w, (res ++ omap plain_pair msgs)%list).
Proof.
  intros Hall. revert res.
  induction Hall as [|msg rest Hmsg _ IH]; intros res.
  - cbn. by rewrite app_nil_r.
  - rewrite render_loop_cons, (turn_pair_plain msg w Hmsg). cbn [fst snd].
    rewrite IH, <- app_assoc. cbn. by destruct (plain_pair msg).
Qed.

(** C3, as the code has it.  The projection is in store order with at most
    one pair per turn: it is the list of the per-turn outcomes, one outcome
    per turn, with the turns that yield no pair left out.  A turn whose body
    raises contributes no pair, and neither does a turn whose first block is
    no [TextBlock], no [BetaTextBlock], no [BetaToolUseBlock] and no image
    tool result.  A store without image turns is projected to the pairs of
    its texts and tool uses and to nothing else; the projection has exactly
    one pair per turn when every turn opens with a [TextBlock], a
    [BetaTextBlock] or a [BetaToolUseBlock]. *)
Theorem render_loop_in_order `{Lib} (msgs : list pyval) (w : World) :
  (render_loop msgs [] w).2 = omap id (turn_outcomes msgs w)
  /\ length (turn_outcomes msgs w) = length msgs
  /\ (length (render_loop msgs [] w).2 <= length msgs)%nat
  /\ (Forall (fun msg => is_Some (plain_pair msg)) msgs ->
      (render_loop msgs [] w).2 = omap plain_pair msgs
      /\ length (render_loop msgs [] w).2 = length msgs)
  /\ (forall msg rest res w0 w1 e,
        render_turn msg w0 = (w1, Raise e) ->
        render_loop (msg :: rest) res w0 = render_loop rest res w1)
  /\ (forall msg block rest res w0,
        first_block msg = Ok block ->
        isinstance_TextBlock block = false ->
        isinstance_BetaTextBlock block = false ->
        isinstance_BetaToolUseBlock block = false ->
        image_test block <> Ok true ->
        render_loop (msg :: rest) res w0 = render_loop rest res w0)
  /\ (Forall (fun msg => opens_with_image msg = false) msgs ->
      render_loop msgs [] w = (w, omap plain_pair msgs)).
Proof.
  split; [apply render_loop_outcomes|].
  split; [apply turn_outcomes_length|].
  split; [rewrite render_loop_outcomes, <- (turn_outcomes_length msgs w);
          apply omap_id_length|].
  split; [|split; [|split]].
  - intros Hall. rewrite (render_loop_plain msgs w Hall). cbn.
    split; [reflexivity | by apply omap_all_length].
  - intros msg rest res w0 w1 e Hraise. cbn [render_loop]. by rewrite Hraise.
  - intros msg block rest res w0 Hb H1 H2 H3 Himg. cbn [render_loop].
    rewrite (render_turn_other msg block w0 Hb H1 H2 H3).
    by destruct (image_test block) as [[]|].
  - intros Hall. by rewrite (render_loop_no_image msgs [] w Hall).
Qed.

Lemma render_loop_in_order_witness :
  let msgs := [user_turn "hello"; assistant_turn "hi"] in
  ((@render_loop sample_lib msgs [] sample_world).2
   = [(PStr "hello", PNone); (PNone, PStr "hi")]
   /\ length (@render_loop sample_lib msgs [] sample_world).2 = length msgs)
  /\ @render_loop sample_lib (turn USER [] :: msgs) [] sample_world
     = @render_loop sample_lib msgs [] sample_world
  /\ @render_loop sample_lib (tool_text_turn "42" :: msgs) [] sample_world
     = @render_loop sample_lib msgs [] sample_world
  /\ @render_loop sample_lib [user_turn "hello"; tool_text_turn "42"; turn BOT [PNone]] []
       sample_world
     = (sample_world, [(PStr "hello", PNone)]).
Proof.
  intros msgs.
  destruct (@render_loop_in_order sample_lib msgs sample_world)
    as (_ & _ & _ & Hplain & Hraise & Hother & _).
  split; [|split; [|split]].
  - apply Hplain. repeat constructor; eexists; reflexivity.
  - apply (Hraise (turn USER []) msgs [] sample_world sample_world IndexError).
    reflexivity.
  - eapply (Hother (tool_text_turn "42") _ msgs [] sample_world);
      [reflexivity | reflexivity | reflexivity | reflexivity | cbn; discriminate].
  - destruct (@render_loop_in_order sample_lib
                [user_turn "hello"; tool_text_turn "42"; turn BOT [PNone]] sample_world)
      as (_ & _ & _ & _ & _ & _ & Hno_image).
    apply Hno_image. repeat constructor.
Defined.

(** C3 as stated fails: a turn that holds the text result of a tool yields
    no pair, so a store of three turns is projected to two pairs. *)
Lemma tool_text_turn_yields_no_pair :
  let msgs := [user_turn "2*21?"; tool_text_turn "42"; assistant_turn "It is 42."] in
  (@render_loop sample_lib msgs [] sample_world).2
  = [(PStr "2*21?", PNone); (PNone, PStr "It is 42.")]
  /\ length (@render_loop sample_lib msgs [] sample_world).2 = 2%nat
  /\ length msgs = 3%nat.
Proof. repeat split; reflexivity. Qed.
